(** * pyperch: the backprop feed-forward network module

    A shallow embedding of [pyperch/neural/backprop_nn.py].  The class
    [BackpropModule] has two methods, [__init__] and [forward]; both are
    embedded as computations in a state-and-exception monad.  Tensor
    scalars are kept abstract (a type class [Scalar]); the generator of
    random numbers is kept abstract as well (a type class [RandomSource]),
    its state is threaded explicitly; so is what the library can
    allocate (a type class [Allocator]). *)

From Stdlib Require Import String ZArith List Bool Lia.
Import ListNotations.
Local Open Scope Z_scope.

Set Implicit Arguments.

(** ** Exceptions and the monad *)

Inductive exn : Type :=
| ValueError (msg : string)
| IndexError (msg : string)
| TypeError (msg : string)
| RuntimeError (msg : string).

(** A computation over a state [S]: it ends with an exception or a value,
    and with a state in both cases. *)
Definition M (S A : Type) : Type := S -> (exn + A) * S.

Definition ret {S A : Type} (a : A) : M S A := fun s => (inr a, s).

Definition raise {S A : Type} (e : exn) : M S A := fun s => (inl e, s).

Definition bind {S A B : Type} (c : M S A) (k : A -> M S B) : M S B :=
  fun s =>
    match c s with
    | (inl e, s') => (inl e, s')
    | (inr a, s') => k a s'
    end.

Notation "x <- c1 ;; c2" := (bind c1 (fun x => c2))
  (at level 61, c1 at next level, right associativity).

(** Lifting of a result that needs no state. *)
Definition lift {S A : Type} (r : exn + A) : M S A := fun s => (r, s).

(** Kleisli composition: [f] first, then [g]. *)
Definition kleisli {S A B C : Type} (f : A -> M S B) (g : B -> M S C) : A -> M S C :=
  fun a => b <- f a ;; g b.

(** [for x in l: acc = body x acc]. *)
Fixpoint for_each {S A B : Type} (l : list A) (body : A -> B -> M S B) (acc : B) : M S B :=
  match l with
  | [] => ret acc
  | x :: l' => acc' <- body x acc ;; for_each l' body acc'
  end.

(** ** Python built-ins *)

(** [range(a, b)]. *)
Definition range (a b : Z) : list Z :=
  map (fun k => a + Z.of_nat k) (seq 0 (Z.to_nat (b - a))).

(** [l[i]] on a list (and on a [ModuleList]): a negative index counts from
    the end, an index outside [-len, len) raises [IndexError]. *)
Definition getitem {A : Type} (l : list A) (i : Z) : exn + A :=
  let n := Z.of_nat (length l) in
  if (i <? - n) || (n <=? i) then inl (IndexError "list index out of range")
  else
    match nth_error l (Z.to_nat (if i <? 0 then i + n else i)) with
    | Some x => inr x
    | None => inl (IndexError "list index out of range")
    end.

(** The values [hidden_units] is called with: the default is the integer
    [10], the check wants a list, and a tuple is a sequence that is not a
    list. *)
Inductive py_value : Type :=
| PyInt (n : Z)
| PyList (l : list Z)
| PyTuple (l : list Z).

(** [isinstance(v, list)]. *)
Definition isinstance_list (v : py_value) : bool :=
  match v with PyList _ => true | PyInt _ | PyTuple _ => false end.

(** ** Scalars and random numbers *)

Class Scalar (R : Type) : Type := {
  zero : R;
  one : R;
  add : R -> R -> R;
  sub : R -> R -> R;
  mul : R -> R -> R;
  div : R -> R -> R;
  ltb : R -> R -> bool;
  eqb : R -> R -> bool
}.

(** [init_uniform fan_in g]: one draw of the initial value of a parameter
    of a linear unit with [fan_in] inputs.  [bernoulli q g]: one draw that
    is [true] with probability [q]. *)
Class RandomSource (G R : Type) : Type := {
  init_uniform : nat -> G -> R * G;
  bernoulli : R -> G -> bool * G
}.

(** What the module reads from its surroundings and what it changes
    there: whether an accelerator is present, and the generator. *)
Record world (G : Type) : Type := {
  cuda_is_available : bool;
  generator : G
}.

(** What makes [nn.Linear] fail on sizes that are not negative and fit a
    64-bit integer: the size of the storage overflows, the device has not
    the memory asked for.  These are [RuntimeError]s of the library;
    [allocation_failure w dev out_f in_f] is the message of the one
    raised, in the world [w], for a unit of [out_f] rows of [in_f]
    entries on the device [dev], and [None] when the unit is built. *)
Class Allocator (G : Type) : Type := {
  allocation_failure : world G -> string -> Z -> Z -> option string
}.

Section Model.

Context {R G : Type} {SR : Scalar R} {RS : RandomSource G R} {AL : Allocator G}.

(** A batch is a list of rows. *)
Definition tensor : Type := list (list R).

Definition numel (X : tensor) : nat := fold_right (fun r n => (length r + n)%nat) 0%nat X.

(** A draw from the generator, as a computation on the world. *)
Definition draw {A : Type} (f : G -> A * G) : M (world G) A :=
  fun w =>
    let (a, g') := f (generator w) in
    (inr a, {| cuda_is_available := cuda_is_available w; generator := g' |}).

Fixpoint replicateM {S A : Type} (n : nat) (c : M S A) : M S (list A) :=
  match n with
  | O => ret []
  | S n' => a <- c ;; l <- replicateM n' c ;; ret (a :: l)
  end.

Fixpoint mapM {S A B : Type} (f : A -> M S B) (l : list A) : M S (list B) :=
  match l with
  | [] => ret []
  | a :: l' => b <- f a ;; bs <- mapM f l' ;; ret (b :: bs)
  end.

(** ** [nn.Linear] *)

Record Linear : Type := {
  in_features : Z;
  out_features : Z;
  weight : list (list R);   (* [out_features] rows of [in_features] entries *)
  bias : list R;            (* [out_features] entries *)
  linear_device : string
}.

(** A size the library can read: it fits a signed 64-bit integer. *)
Definition fits_int64 (x : Z) : bool :=
  (-9223372036854775808 <=? x) && (x <? 9223372036854775808).

(** The error of the library on a size that does not fit (its message
    holds this text). *)
Definition overflow_error : exn := TypeError "Overflow when unpacking long long".

(** [nn.Linear(in_features, out_features, device=device)]: the sizes are
    read, which fails on one that does not fit a 64-bit integer; the
    weight and the bias are allocated, which fails on a negative size and
    wherever the library cannot allocate; then they are drawn. *)
Definition Linear_init (in_f out_f : Z) (dev : string) : M (world G) Linear :=
  if negb (fits_int64 in_f && fits_int64 out_f)
  then raise overflow_error
  else if (in_f <? 0) || (out_f <? 0)
  then raise (RuntimeError "Trying to create tensor with negative dimension")
  else
    failure <- (fun w => (inr (allocation_failure w dev out_f in_f), w)) ;;
    match failure with
    | Some msg => raise (RuntimeError msg)
    | None =>
        w <- replicateM (Z.to_nat out_f)
               (replicateM (Z.to_nat in_f) (draw (init_uniform (Z.to_nat in_f)))) ;;
        b <- replicateM (Z.to_nat out_f) (draw (init_uniform (Z.to_nat in_f))) ;;
        ret {| in_features := in_f; out_features := out_f;
               weight := w; bias := b; linear_device := dev |}
    end.

Definition dot (u v : list R) : R :=
  fold_right (fun p acc => add (mul (fst p) (snd p)) acc) zero (combine u v).

(** The call of a linear unit: [X W^T + b], a shape error when the width
    of the rows of [X] is not [in_features]. *)
Definition Linear_forward (l : Linear) (X : tensor) : exn + tensor :=
  if forallb (fun row => Nat.eqb (length row) (Z.to_nat (in_features l))) X
  then inr (map (fun row =>
                   map (fun wb => add (dot row (fst wb)) (snd wb))
                       (combine (weight l) (bias l))) X)
  else inl (RuntimeError "mat1 and mat2 shapes cannot be multiplied").

(** ** [nn.Dropout] *)

Record Dropout : Type := {
  drop_p : R;           (* the attribute [p] *)
  drop_training : bool  (* the attribute [training] *)
}.

(** The error of [nn.Dropout] on a probability outside [0, 1] (the
    message goes on with the value). *)
Definition dropout_range_error : exn :=
  ValueError "dropout probability has to be between 0 and 1".

(** [nn.Dropout(q)]. *)
Definition Dropout_init {S : Type} (q : R) : M S Dropout :=
  if ltb q zero || ltb one q
  then raise dropout_range_error
  else ret {| drop_p := q; drop_training := true |}.

(** The values [nn.Dropout] accepts. *)
Definition is_probability (q : R) : Prop := ltb q zero || ltb one q = false.

(** The call of the dropout unit.  With [p = 0], outside training mode, or
    on an empty tensor the input comes back as it is and nothing is drawn;
    with [p = 1] everything is zeroed; otherwise every element is kept
    with probability [1 - p] and scaled by [1 / (1 - p)]. *)
Definition Dropout_forward (d : Dropout) (X : tensor) : M (world G) tensor :=
  if ltb (drop_p d) zero || ltb one (drop_p d)
  then raise dropout_range_error
  else if eqb (drop_p d) zero || negb (drop_training d) || Nat.eqb (numel X) 0
  then ret X
  else if eqb (drop_p d) one
  then ret (map (map (fun x => mul x zero)) X)
  else
    mapM (mapM (fun x =>
                  keep <- draw (bernoulli (sub one (drop_p d))) ;;
                  ret (mul x (div (if keep then one else zero) (sub one (drop_p d))))))
         X.

(** ** [BackpropModule] *)

Record BackpropModule : Type := {
  input_dim : Z;
  output_dim : Z;
  hidden_units : py_value;
  hidden_layers : Z;
  dropout : Dropout;
  activation : tensor -> tensor;
  output_activation : tensor -> tensor;
  layers : list Linear;
  device : string
}.

(** The defaults of the signature of [__init__]. *)
Definition default_hidden_units : py_value := PyInt 10.
Definition default_hidden_layers : Z := 1.

Definition config_mismatch : exn :=
  ValueError "hidden_units must be a list with length equal to hidden_layers".

(** [len(hidden_units) != hidden_layers].  The test is the right operand
    of [or]: it is evaluated for a list only. *)
Definition len_differs (v : py_value) (n : Z) : bool :=
  match v with
  | PyList l | PyTuple l => negb (Z.of_nat (length l) =? n)
  | PyInt _ => true
  end.

(** [self.hidden_units[i]], once the check has passed. *)
Definition hidden_units_getitem {S : Type} (v : py_value) (i : Z) : M S Z :=
  match v with
  | PyList l | PyTuple l => lift (getitem l i)
  | PyInt _ => raise (TypeError "int object is not subscriptable")
  end.

(** [BackpropModule.__init__].  The attributes are set first (the dropout
    unit is built there), then [hidden_units] is checked, then the linear
    units are appended to [self.layers] one by one. *)
Definition init (input_dim_ output_dim_ : Z) (hidden_units_ : py_value)
    (hidden_layers_ : Z) (dropout_percent : R)
    (activation_ output_activation_ : tensor -> tensor) : M (world G) BackpropModule :=
  dropout_ <- Dropout_init dropout_percent ;;
  device_ <- (fun w => (inr (if cuda_is_available w then "cuda" else "cpu")%string, w)) ;;
  if negb (isinstance_list hidden_units_) || len_differs hidden_units_ hidden_layers_
  then raise config_mismatch
  else
    (* input layer *)
    h0 <- hidden_units_getitem hidden_units_ 0 ;;
    l0 <- Linear_init input_dim_ h0 device_ ;;
    (* hidden layers *)
    ls <- for_each (range 1 hidden_layers_)
            (fun layer ls =>
               a <- hidden_units_getitem hidden_units_ (layer - 1) ;;
               b <- hidden_units_getitem hidden_units_ layer ;;
               l <- Linear_init a b device_ ;;
               ret (ls ++ [l]))
            [l0] ;;
    (* output layer *)
    hl <- hidden_units_getitem hidden_units_ (-1) ;;
    lf <- Linear_init hl output_dim_ device_ ;;
    ret {| input_dim := input_dim_; output_dim := output_dim_;
           hidden_units := hidden_units_; hidden_layers := hidden_layers_;
           dropout := dropout_; activation := activation_;
           output_activation := output_activation_;
           layers := ls ++ [lf]; device := device_ |}.

(** [module.train(mode)] and [module.eval()]: the flag of the dropout
    unit is what [forward] reads. *)
Definition train (mode : bool) (m : BackpropModule) : BackpropModule :=
  {| input_dim := input_dim m; output_dim := output_dim m;
     hidden_units := hidden_units m; hidden_layers := hidden_layers m;
     dropout := {| drop_p := drop_p (dropout m); drop_training := mode |};
     activation := activation m; output_activation := output_activation m;
     layers := layers m; device := device m |}.

Definition eval (m : BackpropModule) : BackpropModule := train false m.

(** The state of a call of [forward]: the object [self] and the world. *)
Definition heap : Type := (BackpropModule * world G)%type.

(** [self.attr]. *)
Definition getattr {A : Type} (attr : BackpropModule -> A) : M heap A :=
  fun h => (inr (attr (fst h)), h).

(** A computation on the world, run in the heap. *)
Definition in_world {A : Type} (c : M (world G) A) : M heap A :=
  fun h => let (r, w') := c (snd h) in (r, (fst h, w')).

(** [self.layers[i](X)]. *)
Definition call_layer (i : Z) (X : tensor) : M heap tensor :=
  ls <- getattr layers ;;
  l <- lift (getitem ls i) ;;
  lift (Linear_forward l X).

(** [self.activation(X)]. *)
Definition call_activation (X : tensor) : M heap tensor :=
  f <- getattr activation ;; ret (f X).

(** [self.output_activation(X)]. *)
Definition call_output_activation (X : tensor) : M heap tensor :=
  f <- getattr output_activation ;; ret (f X).

(** [self.dropout(X)]. *)
Definition call_dropout (X : tensor) : M heap tensor :=
  d <- getattr dropout ;; in_world (Dropout_forward d X).

(** [BackpropModule.forward]. *)
Definition forward (X : tensor) : M heap tensor :=
  (* Pass through input layer *)
  X <- call_layer 0 X ;;
  X <- call_activation X ;;
  X <- call_dropout X ;;
  (* Pass through hidden layers *)
  n <- getattr hidden_layers ;;
  X <- for_each (range 1 n)
         (fun i X =>
            X <- call_layer i X ;;
            X <- call_activation X ;;
            call_dropout X)
         X ;;
  (* Pass through output layer *)
  n <- getattr hidden_layers ;;
  X <- call_layer n X ;;
  call_output_activation X.

(** ** The forward pass as the specification words it

    A hidden stage is a linear unit, then the activation, then dropout;
    the output stage is a linear unit, then the output activation; the
    pass is the stages one after the other. *)

Definition apply_linear (l : Linear) (X : tensor) : M heap tensor :=
  lift (Linear_forward l X).

Definition hidden_stage (l : Linear) : tensor -> M heap tensor :=
  kleisli (apply_linear l) (kleisli call_activation call_dropout).

Definition output_stage (l : Linear) : tensor -> M heap tensor :=
  kleisli (apply_linear l) call_output_activation.

Fixpoint sequential (stages : list (tensor -> M heap tensor)) : tensor -> M heap tensor :=
  match stages with
  | [] => fun X => ret X
  | f :: rest => kleisli f (sequential rest)
  end.

(** ** What a call does to its heap *)

(** [c] leaves [self] as it finds it. *)
Definition keeps_self {A : Type} (c : M heap A) : Prop :=
  forall h, fst (snd (c h)) = fst h.

(** [c], run on the object [m], gives one result whatever the world is,
    and leaves the world as it is. *)
Definition world_blind {A : Type} (m : BackpropModule) (c : M heap A) : Prop :=
  exists r, forall w, c (m, w) = (r, (m, w)).

(** Dropout draws nothing: the unit is out of training mode, or its
    probability is [0]. *)
Definition dropout_is_off (m : BackpropModule) : Prop :=
  drop_training (dropout m) = false \/ eqb (drop_p (dropout m)) zero = true.

(** ** Shapes *)

(** [X] has [B] rows of [n] entries. *)
Definition has_shape (X : tensor) (B n : nat) : Prop :=
  length X = B /\ Forall (fun row => length row = n) X.

(** An elementwise transform keeps the shape of what it is given. *)
Definition shape_preserving (f : tensor -> tensor) : Prop :=
  forall X B n, has_shape X B n -> has_shape (f X) B n.

(** A linear unit whose parameters have the sizes it declares. *)
Definition wf_linear (l : Linear) : Prop :=
  0 <= in_features l /\ 0 <= out_features l /\
  length (weight l) = Z.to_nat (out_features l) /\
  length (bias l) = Z.to_nat (out_features l).

(** [chain a ls b]: the units of [ls] map width [a] to width [b], each one
    taking what the one before it gives. *)
Fixpoint chain (a : Z) (ls : list Linear) (b : Z) : Prop :=
  match ls with
  | [] => a = b
  | l :: ls' => in_features l = a /\ wf_linear l /\ chain (out_features l) ls' b
  end.

(** ** Rows that are distributions *)

Definition row_sum (r : list R) : R := fold_right add zero r.

(** No entry of [r] is negative and its sum is one, [near_one] being what
    "one" means for the scalars at hand (equality, or a tolerance). *)
Definition prob_row (near_one : R -> Prop) (r : list R) : Prop :=
  Forall (fun x => ltb x zero = false) r /\ near_one (row_sum r).

(** A normalizing transform turns every row (of at least one entry) into
    a distribution. *)
Definition normalizing (near_one : R -> Prop) (f : tensor -> tensor) : Prop :=
  forall X, Forall (fun row => row <> []) X -> Forall (prob_row near_one) (f X).

(** ** The errors of the linear units, by name *)

Definition negative_dimension_error : exn :=
  RuntimeError "Trying to create tensor with negative dimension".

Definition shape_error : exn :=
  RuntimeError "mat1 and mat2 shapes cannot be multiplied".

Definition index_error : exn := IndexError "list index out of range".

(** ** The network as a function

    What the units, the activation and the output activation compute
    when nothing is dropped: every unit but the last is followed by the
    activation, the last one by the output activation. *)
Fixpoint mlp (act oact : tensor -> tensor) (ls : list Linear) (X : tensor)
  : exn + tensor :=
  match ls with
  | [] => inr X
  | l :: ls' =>
      match Linear_forward l X with
      | inl e => inl e
      | inr Y =>
          match ls' with
          | [] => inr (oact Y)
          | _ :: _ => mlp act oact ls' (act Y)
          end
      end
  end.

(** ** Sizes and parameters *)

(** The sizes [(in_features, out_features)] of the units, in order. *)
Definition layer_sizes (ls : list Linear) : list (Z * Z) :=
  map (fun u => (in_features u, out_features u)) ls.

(** The pairs of neighbours of a list of widths. *)
Definition consecutive (dims : list Z) : list (Z * Z) := combine dims (tl dims).

(** The number of scalars a unit holds, and a network holds. *)
Definition unit_parameters (u : Linear) : nat := (numel (weight u) + length (bias u))%nat.

Definition num_parameters (m : BackpropModule) : nat :=
  fold_right (fun u n => (unit_parameters u + n)%nat) 0%nat (layers m).

(** A width the library can read and allocate for: not negative, and
    within a signed 64-bit integer. *)
Definition valid_width (x : Z) : Prop := 0 <= x < 9223372036854775808.


(** The weight of [u] has [out_features] rows of [in_features] entries,
    its bias [out_features] entries. *)
Definition parameters_sized (u : Linear) : Prop :=
  has_shape (weight u) (Z.to_nat (out_features u)) (Z.to_nat (in_features u)) /\
  length (bias u) = Z.to_nat (out_features u).

End Model.

(** ** An instance to compute with: integer scalars, a counter as generator *)

Module Concrete.

#[export] Instance Z_scalar : Scalar Z := {|
  zero := 0; one := 1;
  add := Z.add; sub := Z.sub; mul := Z.mul; div := Z.div;
  ltb := Z.ltb; eqb := Z.eqb
|}.

#[export] Instance counter_source : RandomSource nat Z := {|
  init_uniform := fun _ g => (Z.of_nat (g mod 3) - 1, S g);
  bernoulli := fun _ g => (Nat.even g, S g)
|}.

(** A library with all the memory one asks for: it refuses a unit only
    when the size in bytes of its weight, four bytes an entry, overflows
    a 64-bit integer. *)
#[export] Instance storage_bounded : Allocator nat := {|
  allocation_failure := fun _ _ out_f in_f =>
    if 9223372036854775808 <=? 4 * (out_f * in_f)
    then Some "Storage size calculation overflowed"%string
    else None
|}.

Definition relu : @tensor Z -> @tensor Z := map (map (Z.max 0)).

(** All the mass on the first entry of each row. *)
Definition first_entry : @tensor Z -> @tensor Z :=
  map (fun row => match row with
                  | [] => []
                  | _ :: row' => 1 :: map (fun _ => 0) row'
                  end).

Definition cpu (g : nat) : world nat := {| cuda_is_available := false; generator := g |}.

End Concrete.

(** * Properties *)

Unset Implicit Arguments.

Section Properties.

Context {R G : Type} {SR : Scalar R} {RS : RandomSource G R} {AL : Allocator G}.

Abbreviation tensor := (@tensor R).
Abbreviation Linear := (@Linear R).
Abbreviation BackpropModule := (@BackpropModule R).
Abbreviation heap := (@heap R G).
Abbreviation call_layer := (@call_layer R G).
Abbreviation call_activation := (@call_activation R G).
Abbreviation call_output_activation := (@call_output_activation R G).
Abbreviation call_dropout := (@call_dropout R G SR RS).
Abbreviation forward := (@forward R G SR RS).
Abbreviation apply_linear := (@apply_linear R G SR).
Abbreviation hidden_stage := (@hidden_stage R G SR RS).
Abbreviation output_stage := (@output_stage R G SR).
Abbreviation sequential := (@sequential R G).

#[local] Arguments Z.add _ _ : simpl never.
#[local] Arguments Z.sub _ _ : simpl never.
#[local] Arguments Z.opp _ : simpl never.
#[local] Arguments Z.of_nat _ : simpl never.
#[local] Arguments Z.to_nat _ : simpl never.

(** ** The monad *)

Lemma bind_inr {S A B : Type} (c : M S A) (k : A -> M S B) s b s' :
  bind c k s = (inr b, s') ->
  exists a s1, c s = (inr a, s1) /\ k a s1 = (inr b, s').
Proof.
  unfold bind. destruct (c s) as [[e | a] s1]; intros H.
  - discriminate.
  - exists a, s1. split; [reflexivity | exact H].
Qed.

Lemma bind_step {S A B : Type} (c : M S A) (k : A -> M S B) s a s1 :
  c s = (inr a, s1) -> bind c k s = k a s1.
Proof. intros H. unfold bind. rewrite H. reflexivity. Qed.

Lemma bind_fail {S A B : Type} (c : M S A) (k : A -> M S B) s e s1 :
  c s = (inl e, s1) -> bind c k s = (inl e, s1).
Proof. intros H. unfold bind. rewrite H. reflexivity. Qed.

Tactic Notation "inv_bind" hyp(H) "as" ident(a) ident(H1) :=
  let s := fresh "s" in
  let H2 := fresh H "_r" in
  apply bind_inr in H; destruct H as (a & s & H1 & H2); rename H2 into H.

Ltac inv_ret H :=
  unfold ret, lift in H; inversion H; subst; clear H.

(** ** Indexing *)

Lemma getitem_nth_error {A : Type} (l : list A) (i : Z) (x : A) :
  0 <= i -> getitem l i = inr x -> nth_error l (Z.to_nat i) = Some x.
Proof.
  intros Hi. unfold getitem.
  destruct ((i <? - Z.of_nat (length l)) || (Z.of_nat (length l) <=? i)); [discriminate |].
  destruct (Z.ltb_spec i 0) as [Hneg | _]; [lia |].
  destruct (nth_error l (Z.to_nat i)); intros H; inversion H; reflexivity.
Qed.

Lemma nth_error_getitem {A : Type} (l : list A) (k : nat) (x : A) :
  nth_error l k = Some x -> getitem l (Z.of_nat k) = inr x.
Proof.
  intros H. assert (Hk : (k < length l)%nat) by (apply nth_error_Some; congruence).
  unfold getitem.
  destruct (Z.ltb_spec (Z.of_nat k) (- Z.of_nat (length l))); [lia |].
  destruct (Z.leb_spec (Z.of_nat (length l)) (Z.of_nat k)); [lia |].
  simpl. destruct (Z.ltb_spec (Z.of_nat k) 0); [lia |].
  rewrite Nat2Z.id, H. reflexivity.
Qed.

Lemma getitem_last {A : Type} (l : list A) (x : A) :
  getitem l (-1) = inr x -> nth_error l (length l - 1) = Some x /\ (0 < length l)%nat.
Proof.
  unfold getitem.
  destruct (Z.ltb_spec (-1) (- Z.of_nat (length l))) as [H | H]; [discriminate |].
  destruct (Z.leb_spec (Z.of_nat (length l)) (-1)); [lia |].
  cbv beta iota zeta. rewrite orb_false_r.
  change (-1 <? 0) with true. cbv iota.
  replace (Z.to_nat (-1 + Z.of_nat (length l))) with (length l - 1)%nat by lia.
  destruct (nth_error l (length l - 1)); intros E; [| discriminate E].
  injection E as ->. split; [reflexivity | lia].
Qed.

Lemma getitem_inr_bound {A : Type} (l : list A) (i : Z) (x : A) :
  getitem l i = inr x -> - Z.of_nat (length l) <= i < Z.of_nat (length l).
Proof.
  unfold getitem.
  destruct (Z.ltb_spec i (- Z.of_nat (length l))); [discriminate |].
  destruct (Z.leb_spec (Z.of_nat (length l)) i); [discriminate |].
  intros _. lia.
Qed.

Lemma getitem_in_range {A : Type} (l : list A) (k : nat) :
  (k < length l)%nat -> exists x, getitem l (Z.of_nat k) = inr x /\ In x l.
Proof.
  intros Hk. destruct (nth_error l k) as [x |] eqn:Hx;
    [| apply nth_error_None in Hx; lia].
  exists x. split; [apply nth_error_getitem; exact Hx | eapply nth_error_In; exact Hx].
Qed.

(** ** Construction of a linear unit *)

Lemma replicateM_length {S A : Type} (c : M S A) (n : nat) s l s' :
  replicateM n c s = (inr l, s') -> length l = n.
Proof.
  revert s l s'. induction n as [| n IH]; simpl; intros s l s' H.
  - inv_ret H. reflexivity.
  - inv_bind H as a Ha. inv_bind H as l0 Hl0. inv_ret H.
    simpl. f_equal. eapply IH; eassumption.
Qed.

Lemma Linear_init_inr (a b : Z) (dev : string) w l w' :
  Linear_init a b dev w = (inr l, w') ->
  in_features l = a /\ out_features l = b /\ wf_linear l /\ linear_device l = dev.
Proof.
  unfold Linear_init.
  destruct (negb (fits_int64 a && fits_int64 b)); [discriminate |].
  destruct (Z.ltb_spec a 0) as [Ha | Ha]; [discriminate |].
  destruct (Z.ltb_spec b 0) as [Hb | Hb]; [discriminate |]. simpl.
  intros E. inv_bind E as failure Ef. injection Ef as <- <-.
  destruct (allocation_failure w dev b a); [discriminate E |].
  inv_bind E as wt Ew. inv_bind E as bs Ebs. inv_ret E. simpl.
  apply replicateM_length in Ew, Ebs.
  unfold wf_linear; simpl. repeat split; assumption.
Qed.

(** ** What construction establishes *)

Lemma lift_inr {S A : Type} (r : exn + A) (s s' : S) (a : A) :
  lift r s = (inr a, s') -> r = inr a /\ s' = s.
Proof. unfold lift. intros H. inversion H. split; reflexivity. Qed.

(** The loop of [__init__] over [range(1, hidden_layers)], from any point
    [j] of the range on: it appends one unit per index, sized by the two
    entries of [hidden_units] it reads. *)
Lemma init_loop (hu : list Z) (dev : string) (n : nat) :
  forall (j : nat) (acc : list Linear) w ls w',
    for_each (map (fun k => 1 + Z.of_nat k) (seq j n))
      (fun layer ls =>
         a <- hidden_units_getitem (PyList hu) (layer - 1) ;;
         b <- hidden_units_getitem (PyList hu) layer ;;
         l <- Linear_init a b dev ;;
         ret (ls ++ [l]))
      acc w = (inr ls, w') ->
    exists new,
      ls = acc ++ new /\ length new = n /\
      forall i u, nth_error new i = Some u ->
        getitem hu (Z.of_nat (j + i)) = inr (in_features u) /\
        getitem hu (1 + Z.of_nat (j + i)) = inr (out_features u) /\
        wf_linear u /\ linear_device u = dev.
Proof.
  induction n as [| n IH]; simpl; intros j acc w ls w' E.
  - inv_ret E. exists []. rewrite app_nil_r.
    split; [reflexivity |]. split; [reflexivity |].
    intros [| i] u Hu; discriminate Hu.
  - inv_bind E as acc1 Ebody.
    inv_bind Ebody as x Ea. inv_bind Ebody as y Eb. inv_bind Ebody as u0 Eu.
    inv_ret Ebody.
    apply lift_inr in Ea, Eb. destruct Ea as [Ea ->], Eb as [Eb ->].
    apply Linear_init_inr in Eu. destruct Eu as (Hin & Hout & Hwf & Hdev).
    apply IH in E. destruct E as (new & -> & Hlen & Hnew).
    exists (u0 :: new). rewrite <- app_assoc. simpl.
    split; [reflexivity |]. split; [congruence |].
    intros [| i] u Hu; simpl in Hu.
    + injection Hu as <-. rewrite Nat.add_0_r.
      replace (1 + Z.of_nat j - 1) with (Z.of_nat j) in Ea by lia.
      rewrite Hin, Hout. auto.
    + rewrite Nat.add_succ_r. apply (Hnew i u Hu).
Qed.

(** A successful call of [__init__]: [hidden_units] was a list of
    [hidden_layers >= 1] entries, the dropout probability was accepted,
    and the object holds the arguments and the units [l0], [mids], [lf]. *)
Lemma init_inr (a b : Z) (v : py_value) (hl : Z) (q : R)
    (act oact : tensor -> tensor) (w w' : world G) (m : BackpropModule) :
  init a b v hl q act oact w = (inr m, w') ->
  exists hu l0 mids lf,
    v = PyList hu /\ Z.of_nat (length hu) = hl /\ 1 <= hl /\
    is_probability q /\
    m = {| input_dim := a; output_dim := b; hidden_units := v; hidden_layers := hl;
           dropout := {| drop_p := q; drop_training := true |};
           activation := act; output_activation := oact;
           layers := l0 :: mids ++ [lf];
           device := (if cuda_is_available w then "cuda" else "cpu")%string |} /\
    length mids = Z.to_nat (hl - 1) /\
    (in_features l0 = a /\ getitem hu 0 = inr (out_features l0) /\ wf_linear l0) /\
    (forall i u, nth_error mids i = Some u ->
       getitem hu (Z.of_nat i) = inr (in_features u) /\
       getitem hu (1 + Z.of_nat i) = inr (out_features u) /\ wf_linear u) /\
    (getitem hu (-1) = inr (in_features lf) /\ out_features lf = b /\ wf_linear lf).
Proof.
  unfold init. intros E. inv_bind E as d Ed.
  unfold Dropout_init in Ed.
  destruct (ltb q zero || ltb one q) eqn:Hq; [discriminate Ed |]. inv_ret Ed.
  inv_bind E as dev Edev. inversion Edev; subst; clear Edev.
  destruct v as [k | hu | hu]; simpl in E; [discriminate E | | discriminate E].
  destruct (Z.eqb_spec (Z.of_nat (length hu)) hl) as [Hlen | Hlen]; simpl in E;
    [| discriminate E].
  inv_bind E as h0 E0. apply lift_inr in E0. destruct E0 as [E0 ->].
  inv_bind E as l0 El0. apply Linear_init_inr in El0.
  destruct El0 as (Hin0 & Hout0 & Hwf0 & _).
  inv_bind E as ls Els. unfold range in Els. apply init_loop in Els.
  destruct Els as (mids & -> & Hmids & Hnew).
  inv_bind E as hlast Elast. apply lift_inr in Elast. destruct Elast as [Elast ->].
  inv_bind E as lf Elf. apply Linear_init_inr in Elf.
  destruct Elf as (Hinf & Houtf & Hwff & _).
  inv_ret E.
  exists hu, l0, mids, lf.
  assert (Hhl : 1 <= Z.of_nat (length hu)) by (apply getitem_inr_bound in E0; lia).
  split; [reflexivity |]. split; [reflexivity |]. split; [exact Hhl |].
  split; [exact Hq |]. split; [reflexivity |]. split; [exact Hmids |].
  split; [auto |]. split; [| auto].
  intros i u Hu. destruct (Hnew i u Hu) as (H1 & H2 & H3 & _).
  simpl in H1, H2. auto.
Qed.

(** ** The check of [hidden_units] *)

(** Whatever fails the check of [hidden_units] never gives a network: the
    error is the configuration mismatch, unless [nn.Dropout] has refused
    the probability before the check is reached. *)
Lemma init_check_fails (a b : Z) (v : py_value) (hl : Z) (q : R)
    (act oact : tensor -> tensor) (w : world G) :
  negb (isinstance_list v) || len_differs v hl = true ->
  init a b v hl q act oact w =
  (inl (if ltb q zero || ltb one q then dropout_range_error else config_mismatch), w).
Proof.
  intros Hv. unfold init, Dropout_init.
  destruct (ltb q zero || ltb one q).
  - reflexivity.
  - unfold bind, ret. rewrite Hv. reflexivity.
Qed.

Lemma init_check_fails_ValueError (a b : Z) (v : py_value) (hl : Z) (q : R)
    (act oact : tensor -> tensor) (w : world G) :
  negb (isinstance_list v) || len_differs v hl = true ->
  (exists msg, init a b v hl q act oact w = (inl (ValueError msg), w)) /\
  (is_probability q -> init a b v hl q act oact w = (inl config_mismatch, w)).
Proof.
  intros Hv. rewrite (init_check_fails a b v hl q act oact w Hv).
  unfold is_probability. destruct (ltb q zero || ltb one q).
  - split; [eexists; reflexivity | discriminate].
  - split; [eexists; reflexivity | reflexivity].
Qed.

(** C1. Construction with a [hidden_units] list whose length is not
    [hidden_layers] fails with a [ValueError] that reaches the caller,
    whatever the other arguments are; on every configuration whose
    dropout probability [nn.Dropout] accepts, the error is the
    configuration mismatch.  So it is for [hidden_units=[8,8]],
    [hidden_layers=1]. *)
Theorem init_length_mismatch (a b : Z) (hu : list Z) (hl : Z) (q : R)
    (act oact : tensor -> tensor) (w : world G) :
  Z.of_nat (length hu) <> hl ->
  (exists msg, init a b (PyList hu) hl q act oact w = (inl (ValueError msg), w)) /\
  (is_probability q ->
   init a b (PyList hu) hl q act oact w = (inl config_mismatch, w)) /\
  (is_probability q ->
   init a b (PyList [8; 8]) 1 q act oact w = (inl config_mismatch, w)).
Proof.
  intros Hlen.
  assert (H1 : negb (isinstance_list (PyList hu)) || len_differs (PyList hu) hl = true).
  { simpl. destruct (Z.eqb_spec (Z.of_nat (length hu)) hl); [contradiction | reflexivity]. }
  destruct (init_check_fails_ValueError a b (PyList hu) hl q act oact w H1) as [Ha Hb].
  split; [exact Ha |]. split; [exact Hb |].
  apply init_check_fails_ValueError. reflexivity.
Qed.

(** C5, as amended.  A single integer is not broadcast: for every integer
    given as [hidden_units] and every [hidden_layers], construction fails
    with a [ValueError], the configuration mismatch whenever [nn.Dropout]
    accepts the probability; a construction that succeeds was given a
    list of [hidden_layers] entries. *)
Theorem init_rejects_integer (a b n : Z) (hl : Z) (q : R)
    (act oact : tensor -> tensor) (w : world G) :
  (exists msg, init a b (PyInt n) hl q act oact w = (inl (ValueError msg), w)) /\
  (is_probability q ->
   init a b (PyInt n) hl q act oact w = (inl config_mismatch, w)) /\
  (forall v m w', init a b v hl q act oact w = (inr m, w') ->
                  exists hu, v = PyList hu /\ Z.of_nat (length hu) = hl).
Proof.
  destruct (init_check_fails_ValueError a b (PyInt n) hl q act oact w eq_refl) as [Ha Hb].
  split; [exact Ha |]. split; [exact Hb |].
  intros v m w' E. apply init_inr in E.
  destruct E as (hu & l0 & mids & lf & Hv & Hlen & _).
  exists hu. split; assumption.
Qed.

(** C9, as amended.  With [hidden_units] left at its default [10],
    construction never gives a network, whatever the other arguments
    are: it fails with a [ValueError], which is the configuration
    mismatch exactly when [nn.Dropout] accepts the probability, and the
    error of [nn.Dropout], raised before the check, otherwise. *)
Theorem init_default_hidden_units (a b : Z) (hl : Z) (q : R)
    (act oact : tensor -> tensor) (w : world G) :
  (exists msg,
     init a b default_hidden_units hl q act oact w = (inl (ValueError msg), w)) /\
  (is_probability q ->
   init a b default_hidden_units hl q act oact w = (inl config_mismatch, w)) /\
  (~ is_probability q ->
   init a b default_hidden_units hl q act oact w = (inl dropout_range_error, w)).
Proof.
  rewrite (init_check_fails a b default_hidden_units hl q act oact w eq_refl).
  unfold is_probability. destruct (ltb q zero || ltb one q).
  - split; [eexists; reflexivity |]. split; [discriminate | reflexivity].
  - split; [eexists; reflexivity |]. split; [reflexivity |].
    intros H. exfalso. apply H. reflexivity.
Qed.

(** C10. A construction that succeeds had [hidden_layers >= 1].  With
    [hidden_units=[]] and [hidden_layers=0] the check passes, and the
    read of [hidden_units[0]] then fails with [IndexError], not with the
    configuration mismatch. *)
Theorem init_needs_a_hidden_layer (a b : Z) (q : R)
    (act oact : tensor -> tensor) (w : world G) :
  (forall v hl m w', init a b v hl q act oact w = (inr m, w') -> 1 <= hl) /\
  negb (isinstance_list (PyList [])) || len_differs (PyList []) 0 = false /\
  (is_probability q ->
   init a b (PyList []) 0 q act oact w =
   (inl (IndexError "list index out of range"), w)).
Proof.
  split; [| split].
  - intros v hl m w' E. apply init_inr in E.
    destruct E as (hu & l0 & mids & lf & _ & _ & Hhl & _). exact Hhl.
  - reflexivity.
  - unfold is_probability. intros Hq. unfold init, Dropout_init. rewrite Hq.
    reflexivity.
Qed.

(** ** The wiring of the units *)

Lemma getitem_of_nat {A : Type} (l : list A) (k : nat) (x : A) :
  getitem l (Z.of_nat k) = inr x -> nth_error l k = Some x.
Proof.
  intros H. apply getitem_nth_error in H; [| lia]. rewrite Nat2Z.id in H. exact H.
Qed.

Lemma mids_chain (hu : list Z) (mids : list Linear) :
  forall (j : nat) (x : Z) (rest : list Linear) (c : Z),
    (forall i u, nth_error mids i = Some u ->
       getitem hu (Z.of_nat (j + i)) = inr (in_features u) /\
       getitem hu (1 + Z.of_nat (j + i)) = inr (out_features u) /\ wf_linear u) ->
    getitem hu (Z.of_nat j) = inr x ->
    (forall y, getitem hu (Z.of_nat (j + length mids)) = inr y -> chain y rest c) ->
    chain x (mids ++ rest) c.
Proof.
  induction mids as [| u mids IH]; intros j x rest c Hmids Hx Hrest.
  - simpl. apply Hrest. simpl. rewrite Nat.add_0_r. exact Hx.
  - destruct (Hmids 0%nat u eq_refl) as (Hin & Hout & Hwf).
    rewrite Nat.add_0_r in Hin, Hout.
    simpl. split; [congruence |]. split; [exact Hwf |].
    apply (IH (S j)).
    + intros i v Hv. specialize (Hmids (S i) v Hv).
      rewrite Nat.add_succ_r in Hmids. exact Hmids.
    + replace (Z.of_nat (S j)) with (1 + Z.of_nat j) by lia. exact Hout.
    + intros y Hy. apply Hrest. simpl length. rewrite Nat.add_succ_r. exact Hy.
Qed.

Lemma chain_adjacent (ls : list Linear) :
  forall (a b : Z) (i : nat) (u1 u2 : Linear),
    chain a ls b -> nth_error ls i = Some u1 -> nth_error ls (S i) = Some u2 ->
    in_features u2 = out_features u1.
Proof.
  induction ls as [| l ls IH]; intros a b i u1 u2 Hc H1 H2.
  - destruct i; discriminate H1.
  - destruct Hc as (_ & _ & Hc). destruct i as [| i].
    + injection H1 as <-. destruct ls as [| l' ls']; [discriminate H2 |].
      injection H2 as <-. destruct Hc as (Hin & _). exact Hin.
    + eapply IH; eassumption.
Qed.

(** The units of a constructed network form a chain from [input_dim] to
    [output_dim]. *)
Lemma init_chain (a b : Z) (v : py_value) (hl : Z) (q : R)
    (act oact : tensor -> tensor) (w w' : world G) (m : BackpropModule) :
  init a b v hl q act oact w = (inr m, w') ->
  chain a (layers m) b /\ length (layers m) = S (Z.to_nat hl).
Proof.
  intros E. apply init_inr in E.
  destruct E as (hu & l0 & mids & lf & _ & Hlen & Hhl & _ & -> & Hmids & H0 & Hk & Hf).
  destruct H0 as (Hin0 & Hout0 & Hwf0). destruct Hf as (Hinf & Houtf & Hwff).
  cbn [layers]. split.
  - cbn [chain]. split; [exact Hin0 |]. split; [exact Hwf0 |].
    apply (mids_chain hu mids 0); [exact Hk | exact Hout0 |].
    intros y Hy. cbn [chain]. apply getitem_of_nat in Hy.
    apply getitem_last in Hinf. destruct Hinf as [Hinf _].
    replace (0 + length mids)%nat with (length hu - 1)%nat in Hy by lia.
    split; [congruence |]. split; [exact Hwff | exact Houtf].
  - cbn [length]. rewrite length_app. cbn [length]. lia.
Qed.

(** C2. A construction that succeeds holds [hidden_layers + 1] linear
    units: unit [0] maps [input_dim] to [hidden_units[0]], unit [k] for
    [1 <= k < hidden_layers] maps [hidden_units[k-1]] to
    [hidden_units[k]], the last unit maps [hidden_units[-1]] to
    [output_dim]; every unit takes the width the unit before it gives. *)
Theorem init_wiring (a b : Z) (v : py_value) (hl : Z) (q : R)
    (act oact : tensor -> tensor) (w w' : world G) (m : BackpropModule) :
  init a b v hl q act oact w = (inr m, w') ->
  exists hu,
    v = PyList hu /\ hidden_units m = PyList hu /\
    Z.of_nat (length hu) = hl /\
    Z.of_nat (length (layers m)) = hl + 1 /\
    (exists u, getitem (layers m) 0 = inr u /\
               in_features u = a /\ getitem hu 0 = inr (out_features u)) /\
    (forall k, 1 <= k < hl ->
       exists u, getitem (layers m) k = inr u /\
                 getitem hu (k - 1) = inr (in_features u) /\
                 getitem hu k = inr (out_features u)) /\
    (exists u, getitem (layers m) hl = inr u /\ getitem (layers m) (-1) = inr u /\
               getitem hu (-1) = inr (in_features u) /\ out_features u = b) /\
    (forall i, 1 <= i <= hl ->
       exists u1 u2, getitem (layers m) (i - 1) = inr u1 /\
                     getitem (layers m) i = inr u2 /\
                     in_features u2 = out_features u1).
Proof.
  intros E. destruct (init_chain _ _ _ _ _ _ _ _ _ _ E) as [Hchain HlenL].
  apply init_inr in E.
  destruct E as (hu & l0 & mids & lf & -> & Hlen & Hhl & _ & -> & Hmids & H0 & Hk & Hf).
  destruct H0 as (Hin0 & Hout0 & Hwf0). destruct Hf as (Hinf & Houtf & Hwff).
  cbn [layers hidden_units] in *.
  set (L := l0 :: mids ++ [lf]) in *.
  assert (Hmid : forall i, (i < length mids)%nat -> nth_error L (S i) = nth_error mids i).
  { intros i Hi. unfold L. cbn [nth_error]. apply nth_error_app1. exact Hi. }
  assert (Hlast : nth_error L (S (length mids)) = Some lf).
  { unfold L. cbn [nth_error]. rewrite nth_error_app2 by lia.
    rewrite Nat.sub_diag. reflexivity. }
  exists hu. split; [reflexivity |]. split; [reflexivity |]. split; [exact Hlen |].
  split; [rewrite HlenL; lia |].
  split; [exists l0; auto |].
  split; [| split].
  - intros k Hk1.
    assert (Hi : (Z.to_nat (k - 1) < length mids)%nat) by lia.
    destruct (nth_error mids (Z.to_nat (k - 1))) as [u |] eqn:Hu;
      [| apply nth_error_None in Hu; lia].
    exists u. destruct (Hk _ _ Hu) as (H1 & H2 & _).
    replace (Z.of_nat (Z.to_nat (k - 1))) with (k - 1) in H1, H2 by lia.
    replace (1 + (k - 1)) with k in H2 by lia.
    split; [| split; assumption].
    replace k with (Z.of_nat (S (Z.to_nat (k - 1)))) by lia.
    apply nth_error_getitem. rewrite Hmid by exact Hi. exact Hu.
  - exists lf. split; [| split; [| split; assumption]].
    + replace hl with (Z.of_nat (S (length mids))) by lia.
      apply nth_error_getitem. exact Hlast.
    + unfold getitem. rewrite HlenL.
      destruct (Z.ltb_spec (-1) (- Z.of_nat (S (Z.to_nat hl)))); [lia |].
      destruct (Z.leb_spec (Z.of_nat (S (Z.to_nat hl))) (-1)); [lia |].
      cbn [orb]. change (-1 <? 0) with true. cbv iota.
      replace (Z.to_nat (-1 + Z.of_nat (S (Z.to_nat hl)))) with (S (length mids)) by lia.
      rewrite Hlast. reflexivity.
  - intros i Hi.
    assert (H1 : (Z.to_nat (i - 1) < length L)%nat) by lia.
    assert (H2 : (S (Z.to_nat (i - 1)) < length L)%nat) by lia.
    destruct (nth_error L (Z.to_nat (i - 1))) as [u1 |] eqn:Hu1;
      [| apply nth_error_None in Hu1; lia].
    destruct (nth_error L (S (Z.to_nat (i - 1)))) as [u2 |] eqn:Hu2;
      [| apply nth_error_None in Hu2; lia].
    exists u1, u2. split; [| split].
    + replace (i - 1) with (Z.of_nat (Z.to_nat (i - 1))) at 1 by lia.
      apply nth_error_getitem. exact Hu1.
    + replace i with (Z.of_nat (S (Z.to_nat (i - 1)))) at 1 by lia.
      apply nth_error_getitem. exact Hu2.
    + eapply chain_adjacent; eassumption.
Qed.

(** ** Construction succeeds on valid configurations *)

Lemma replicateM_total {S A : Type} (c : M S A) :
  (forall s, exists a s', c s = (inr a, s')) ->
  forall n s, exists l s', replicateM n c s = (inr l, s').
Proof.
  intros Hc. induction n as [| n IH]; intros s; cbn [replicateM].
  - exists [], s. reflexivity.
  - destruct (Hc s) as (a & s1 & Ea). destruct (IH s1) as (l & s2 & El).
    exists (a :: l), s2. unfold bind. rewrite Ea, El. reflexivity.
Qed.

Lemma draw_total {A : Type} (f : G -> A * G) (w : world G) :
  exists a w', draw f w = (inr a, w').
Proof. unfold draw. destruct (f (generator w)) as [a g']. eexists _, _. reflexivity. Qed.

Lemma Linear_init_total (a b : Z) (dev : string) (w : world G) :
  valid_width a -> valid_width b -> allocation_failure w dev b a = None ->
  exists l w', Linear_init a b dev w = (inr l, w').
Proof.
  unfold valid_width. intros Ha Hb Halloc. unfold Linear_init.
  assert (Hfit : negb (fits_int64 a && fits_int64 b) = false).
  { unfold fits_int64.
    destruct (Z.leb_spec (-9223372036854775808) a); [| lia].
    destruct (Z.ltb_spec a 9223372036854775808); [| lia].
    destruct (Z.leb_spec (-9223372036854775808) b); [| lia].
    destruct (Z.ltb_spec b 9223372036854775808); [| lia].
    reflexivity. }
  rewrite Hfit.
  destruct (Z.ltb_spec a 0); [lia |]. destruct (Z.ltb_spec b 0); [lia |]. cbn [orb].
  unfold bind at 1. rewrite Halloc.
  destruct (replicateM_total
              (replicateM (Z.to_nat a) (draw (init_uniform (Z.to_nat a))))
              (replicateM_total _ (draw_total _) (Z.to_nat a))
              (Z.to_nat b) w) as (wt & w1 & Ew).
  destruct (replicateM_total _ (draw_total (init_uniform (Z.to_nat a))) (Z.to_nat b) w1)
    as (bs & w2 & Eb).
  eexists _, w2. unfold bind. rewrite Ew, Eb. reflexivity.
Qed.


Lemma nth_error_In_both (l : list Z) (k : nat) (x y : Z) :
  nth_error l k = Some x -> nth_error l (S k) = Some y -> In x l /\ In y l.
Proof. intros Hx Hy. split; eapply nth_error_In; eassumption. Qed.


Lemma consecutive_nth (l : list Z) :
  forall (k : nat) (x y : Z),
    nth_error l k = Some x -> nth_error l (S k) = Some y -> In (x, y) (consecutive l).
Proof.
  induction l as [| d l IH]; intros k x y Hx Hy; [destruct k; discriminate Hx |].
  destruct l as [| d' l']; [destruct k as [| [| k]]; discriminate Hy |].
  unfold consecutive in *. cbn [tl combine].
  destruct k as [| k].
  - cbn in Hx, Hy. injection Hx as <-. injection Hy as <-. left. reflexivity.
  - right. apply (IH k x y Hx Hy).
Qed.

Lemma nth_error_dims (a b : Z) (hu : list Z) (k : nat) (x : Z) :
  nth_error hu k = Some x -> nth_error (a :: hu ++ [b]) (S k) = Some x.
Proof.
  intros Hx. change (nth_error (hu ++ [b]) k = Some x).
  rewrite nth_error_app1 by (apply nth_error_Some; congruence). exact Hx.
Qed.

Lemma nth_error_dims_last (a b : Z) (hu : list Z) :
  nth_error (a :: hu ++ [b]) (S (length hu)) = Some b.
Proof.
  change (nth_error (hu ++ [b]) (length hu) = Some b).
  rewrite nth_error_app2 by lia. rewrite Nat.sub_diag. reflexivity.
Qed.


(** ** The forward pass leaves [self] alone *)

Lemma keeps_self_bind {A B : Type} (c : M heap A) (k : A -> M heap B) :
  keeps_self c -> (forall a, keeps_self (k a)) -> keeps_self (bind c k).
Proof.
  intros Hc Hk h. unfold bind. specialize (Hc h).
  destruct (c h) as [[e | a] h1]; simpl in *.
  - exact Hc.
  - rewrite (Hk a h1). exact Hc.
Qed.

Lemma keeps_self_lift {A : Type} (r : exn + A) : keeps_self (lift (S:=heap) r).
Proof. intros h. reflexivity. Qed.

Lemma keeps_self_ret {A : Type} (a : A) : keeps_self (ret (S:=heap) a).
Proof. intros h. reflexivity. Qed.

Lemma keeps_self_getattr {A : Type} (attr : BackpropModule -> A) :
  keeps_self (G:=G) (getattr attr).
Proof. intros h. reflexivity. Qed.

Lemma keeps_self_in_world {A : Type} (c : M (world G) A) :
  keeps_self (R:=R) (in_world c).
Proof. intros h. unfold in_world. destruct (c (snd h)). reflexivity. Qed.

Lemma keeps_self_for_each {A B : Type} (l : list A) (body : A -> B -> M heap B) :
  (forall x acc, keeps_self (body x acc)) ->
  forall acc, keeps_self (for_each l body acc).
Proof.
  intros Hbody. induction l as [| x l IH]; intros acc; cbn [for_each].
  - apply keeps_self_ret.
  - apply keeps_self_bind; [apply Hbody | exact IH].
Qed.

Create HintDb frame.
#[local] Hint Resolve keeps_self_lift keeps_self_ret keeps_self_getattr
  keeps_self_in_world : frame.
#[local] Hint Extern 2 (keeps_self (bind _ _)) =>
  (apply keeps_self_bind; [| intro]) : frame.
#[local] Hint Extern 2 (keeps_self (for_each _ _ _)) =>
  (apply keeps_self_for_each; intros) : frame.

Lemma keeps_self_call_layer (i : Z) (X : tensor) : keeps_self (call_layer i X).
Proof. unfold call_layer. auto with frame. Qed.

Lemma keeps_self_call_activation (X : tensor) : keeps_self (call_activation X).
Proof. unfold call_activation. auto with frame. Qed.

Lemma keeps_self_call_output_activation (X : tensor) :
  keeps_self (call_output_activation X).
Proof. unfold call_output_activation. auto with frame. Qed.

Lemma keeps_self_call_dropout (X : tensor) : keeps_self (call_dropout X).
Proof. unfold call_dropout. auto with frame. Qed.

#[local] Hint Resolve keeps_self_call_layer keeps_self_call_activation
  keeps_self_call_output_activation keeps_self_call_dropout : frame.

Lemma keeps_self_forward (X : tensor) : keeps_self (forward X).
Proof. unfold forward. auto 20 with frame. Qed.

(** C7. A call of [forward] ends, with a result or with an exception, on
    the object it started on: [input_dim], [output_dim], [hidden_units],
    [hidden_layers], the list [layers], [activation],
    [output_activation] and [device] are what they were. *)
Theorem forward_keeps_structure (X : tensor) (m : BackpropModule) (w : world G) :
  let m' := fst (snd (forward X (m, w))) in
  m' = m /\
  input_dim m' = input_dim m /\ output_dim m' = output_dim m /\
  hidden_units m' = hidden_units m /\ hidden_layers m' = hidden_layers m /\
  layers m' = layers m /\ length (layers m') = length (layers m) /\
  activation m' = activation m /\ output_activation m' = output_activation m /\
  device m' = device m.
Proof.
  intros m'. assert (E : m' = m) by apply (keeps_self_forward X (m, w)).
  rewrite E. repeat split; reflexivity.
Qed.

(** ** Two runs of the forward pass *)

Lemma world_blind_lift {A : Type} (m : BackpropModule) (r : exn + A) :
  world_blind m (lift (S:=heap) r).
Proof. exists r. intros w. reflexivity. Qed.

Lemma world_blind_ret {A : Type} (m : BackpropModule) (a : A) :
  world_blind m (ret (S:=heap) a).
Proof. exists (inr a). intros w. reflexivity. Qed.

Lemma world_blind_getattr {A : Type} (m : BackpropModule)
    (attr : BackpropModule -> A) :
  world_blind (G:=G) m (getattr attr).
Proof. exists (inr (attr m)). intros w. reflexivity. Qed.

Lemma world_blind_bind {A B : Type} (m : BackpropModule)
    (c : M heap A) (k : A -> M heap B) :
  world_blind m c -> (forall a, world_blind m (k a)) -> world_blind m (bind c k).
Proof.
  intros [[e | a] Hc] Hk.
  - exists (inl e). intros w. unfold bind. rewrite Hc. reflexivity.
  - destruct (Hk a) as [r Hr]. exists r. intros w. unfold bind. rewrite Hc. apply Hr.
Qed.

Lemma world_blind_for_each {A B : Type} (m : BackpropModule) (l : list A)
    (body : A -> B -> M heap B) :
  (forall x acc, world_blind m (body x acc)) ->
  forall acc, world_blind m (for_each l body acc).
Proof.
  intros Hbody. induction l as [| x l IH]; intros acc; cbn [for_each].
  - apply world_blind_ret.
  - apply world_blind_bind; [apply Hbody | exact IH].
Qed.

(** With dropout off the dropout unit returns its input, or raises on a
    probability out of range; it draws nothing in both cases. *)
Lemma Dropout_forward_off (d : Dropout) (X : tensor) (w : world G) :
  drop_training d = false \/ eqb (drop_p d) zero = true ->
  Dropout_forward d X w =
  (if ltb (drop_p d) zero || ltb one (drop_p d) then inl dropout_range_error else inr X, w).
Proof.
  intros Hoff. unfold Dropout_forward.
  destruct (ltb (drop_p d) zero || ltb one (drop_p d)); [reflexivity |].
  assert (H : eqb (drop_p d) zero || negb (drop_training d) || Nat.eqb (numel X) 0 = true).
  { destruct Hoff as [H | H]; rewrite H; simpl; [| reflexivity].
    rewrite orb_true_r. reflexivity. }
  rewrite H. reflexivity.
Qed.

Lemma world_blind_call_dropout (m : BackpropModule) (X : tensor) :
  dropout_is_off m -> world_blind m (call_dropout X).
Proof.
  intros Hoff.
  exists (if ltb (drop_p (dropout m)) zero || ltb one (drop_p (dropout m))
          then inl dropout_range_error else inr X).
  intros w. unfold call_dropout, bind, getattr, in_world.
  cbn [fst snd]. rewrite (Dropout_forward_off _ X w Hoff). reflexivity.
Qed.

Create HintDb blind.
#[local] Hint Resolve world_blind_lift world_blind_ret world_blind_getattr
  world_blind_call_dropout : blind.
#[local] Hint Extern 2 (world_blind _ (bind _ _)) =>
  (apply world_blind_bind; [| intro]) : blind.
#[local] Hint Extern 2 (world_blind _ (for_each _ _ _)) =>
  (apply world_blind_for_each; intros) : blind.

Lemma world_blind_forward (m : BackpropModule) (X : tensor) :
  dropout_is_off m -> world_blind m (forward X).
Proof.
  intros Hoff.
  unfold forward, call_layer, call_activation, call_output_activation.
  auto 30 with blind.
Qed.

(** C6. With dropout off (the unit out of training mode, or its
    probability [0]) two forward passes on one input give one output:
    whatever the states of the generator they start from, and so also
    when the second pass starts where the first one ended. *)
Theorem forward_deterministic (m : BackpropModule) (X : tensor) (w1 w2 : world G) :
  drop_training (dropout m) = false \/ eqb (drop_p (dropout m)) zero = true ->
  fst (forward X (m, w1)) = fst (forward X (m, w2)) /\
  fst (forward X (snd (forward X (m, w1)))) = fst (forward X (m, w1)).
Proof.
  intros Hoff. destruct (world_blind_forward m X Hoff) as [r Hr].
  rewrite (Hr w1), (Hr w2). cbn [fst snd]. rewrite (Hr w1).
  split; reflexivity.
Qed.

(** ** The forward pass as a composition of stages *)

Lemma bind_ext {S A B : Type} (c : M S A) (k1 k2 : A -> M S B) (s : S) :
  (forall a s', k1 a s' = k2 a s') -> bind c k1 s = bind c k2 s.
Proof.
  intros Hk. unfold bind. destruct (c s) as [[e | a] s']; [reflexivity | apply Hk].
Qed.

Lemma bind_assoc {S A B C : Type} (c : M S A) (f : A -> M S B) (g : B -> M S C) (s : S) :
  bind (bind c f) g s = bind c (fun a => bind (f a) g) s.
Proof. unfold bind. destruct (c s) as [[e | a] s']; reflexivity. Qed.

(** Two computations that agree on [self = m], followed by continuations
    that agree on [self = m]. *)
Lemma bind_cong_self {A B : Type} (m : BackpropModule) (w : world G)
    (c1 c2 : M heap A) (k1 k2 : A -> M heap B) :
  c1 (m, w) = c2 (m, w) -> keeps_self c2 ->
  (forall a w', k1 a (m, w') = k2 a (m, w')) ->
  bind c1 k1 (m, w) = bind c2 k2 (m, w).
Proof.
  intros Hc Hkeep Hk. unfold bind. rewrite Hc. specialize (Hkeep (m, w)).
  destruct (c2 (m, w)) as [[e | a] [m' w']]; cbn [fst snd] in Hkeep; subst m'.
  - reflexivity.
  - apply Hk.
Qed.

Lemma bind_ext_self {A B : Type} (m : BackpropModule) (w : world G)
    (c : M heap A) (k1 k2 : A -> M heap B) :
  keeps_self c -> (forall a w', k1 a (m, w') = k2 a (m, w')) ->
  bind c k1 (m, w) = bind c k2 (m, w).
Proof. intros Hc Hk. apply bind_cong_self; [reflexivity | exact Hc | exact Hk]. Qed.

Lemma sequential_snoc (stages : list (tensor -> M heap tensor))
    (f : tensor -> M heap tensor) :
  forall X h, sequential (stages ++ [f]) X h = bind (sequential stages X) f h.
Proof.
  induction stages as [| g stages IH]; intros X h; cbn [app sequential].
  - unfold kleisli, bind, ret. destruct (f X h) as [[e | a] h']; reflexivity.
  - unfold kleisli. rewrite bind_assoc. apply bind_ext. exact IH.
Qed.

Lemma keeps_self_hidden_stage (u : Linear) (X : tensor) : keeps_self (hidden_stage u X).
Proof. unfold hidden_stage, kleisli, apply_linear. auto with frame. Qed.

Lemma keeps_self_output_stage (u : Linear) (X : tensor) : keeps_self (output_stage u X).
Proof. unfold output_stage, kleisli, apply_linear. auto with frame. Qed.

Lemma keeps_self_hidden_stages (us : list Linear) :
  forall X, keeps_self (sequential (map hidden_stage us) X).
Proof.
  induction us as [| u us IH]; intros X; cbn [map sequential].
  - apply keeps_self_ret.
  - unfold kleisli. apply keeps_self_bind; [apply keeps_self_hidden_stage | exact IH].
Qed.

(** [self.layers[i](X)] is the call of the unit found at index [i]. *)
Lemma call_layer_at (m : BackpropModule) (w : world G) (i : Z) (u : Linear) (X : tensor) :
  getitem (layers m) i = inr u ->
  call_layer i X (m, w) = apply_linear u X (m, w).
Proof.
  intros Hu. unfold call_layer, apply_linear, bind, getattr, lift. cbn [fst snd].
  rewrite Hu. reflexivity.
Qed.

(** One turn of the loop of [forward] is the hidden stage of its unit. *)
Lemma loop_body_is_stage (m : BackpropModule) (w : world G) (i : Z) (u : Linear)
    (X : tensor) :
  getitem (layers m) i = inr u ->
  (X1 <- call_layer i X ;; X2 <- call_activation X1 ;; call_dropout X2) (m, w) =
  hidden_stage u X (m, w).
Proof.
  intros Hu. unfold hidden_stage, kleisli.
  apply bind_cong_self.
  - apply call_layer_at. exact Hu.
  - unfold apply_linear. auto with frame.
  - reflexivity.
Qed.

(** The same, when something follows. *)
Lemma stage_then {B : Type} (m : BackpropModule) (w : world G) (i : Z) (u : Linear)
    (X : tensor) (K : tensor -> M heap B) :
  getitem (layers m) i = inr u ->
  (X1 <- call_layer i X ;; X2 <- call_activation X1 ;; X3 <- call_dropout X2 ;; K X3)
    (m, w) =
  bind (hidden_stage u X) K (m, w).
Proof.
  intros Hu. unfold hidden_stage, kleisli. rewrite bind_assoc.
  apply bind_cong_self.
  - apply call_layer_at. exact Hu.
  - unfold apply_linear. auto with frame.
  - intros a w'. rewrite bind_assoc. reflexivity.
Qed.

Lemma bind_getattr {A B : Type} (attr : BackpropModule -> A) (k : A -> M heap B)
    (m : BackpropModule) (w : world G) :
  bind (getattr attr) k (m, w) = k (attr m) (m, w).
Proof. reflexivity. Qed.

Lemma skipn_nth_error {A : Type} (l : list A) :
  forall (j : nat) (x : A), nth_error l j = Some x -> skipn j l = x :: skipn (S j) l.
Proof.
  induction l as [| y l IH]; intros [| j] x H; try discriminate H.
  - injection H as ->. reflexivity.
  - cbn [nth_error] in H. change (skipn (S j) (y :: l)) with (skipn j l).
    rewrite (IH j x H). reflexivity.
Qed.

(** The loop of [forward] over [range(1, hidden_layers)], from any point
    [j] of the range on, is the hidden stages of the units it meets. *)
Lemma forward_loop (m : BackpropModule) (l0 : Linear) (mids : list Linear) (lf : Linear) :
  layers m = l0 :: mids ++ [lf] ->
  forall (n j : nat) (X : tensor) (w : world G),
    (j + n <= length mids)%nat ->
    for_each (map (fun k => 1 + Z.of_nat k) (seq j n))
      (fun i X => X1 <- call_layer i X ;; X2 <- call_activation X1 ;; call_dropout X2)
      X (m, w) =
    sequential (map hidden_stage (firstn n (skipn j mids))) X (m, w).
Proof.
  intros HL. induction n as [| n IH]; intros j X w Hj.
  - reflexivity.
  - destruct (nth_error mids j) as [u |] eqn:Hu; [| apply nth_error_None in Hu; lia].
    rewrite (skipn_nth_error mids j u Hu).
    cbn [seq map for_each firstn sequential]. unfold kleisli at 1.
    apply bind_cong_self.
    + apply loop_body_is_stage. rewrite HL.
      replace (1 + Z.of_nat j) with (Z.of_nat (S j)) by lia.
      apply nth_error_getitem. cbn [nth_error].
      rewrite nth_error_app1 by (apply nth_error_Some; congruence). exact Hu.
    + apply keeps_self_hidden_stage.
    + intros X' w'. apply IH. lia.
Qed.

(** The whole pass, for an object whose list of units has the length
    its [hidden_layers] says. *)
Lemma forward_as_stages (m : BackpropModule) (l0 : Linear) (mids : list Linear)
    (lf : Linear) :
  layers m = l0 :: mids ++ [lf] ->
  hidden_layers m = Z.of_nat (S (length mids)) ->
  forall (X : tensor) (w : world G),
    forward X (m, w) =
    sequential (hidden_stage l0 :: map hidden_stage mids ++ [output_stage lf]) X (m, w).
Proof.
  intros HL Hhl X w. cbn [sequential]. unfold kleisli at 1.
  unfold forward.
  rewrite stage_then with (u := l0) by (rewrite HL; reflexivity).
  apply bind_ext_self; [apply keeps_self_hidden_stage |].
  intros X1 w1. rewrite bind_getattr, Hhl, sequential_snoc.
  apply bind_cong_self.
  - unfold range.
    replace (Z.to_nat (Z.of_nat (S (length mids)) - 1)) with (length mids) by lia.
    rewrite (forward_loop m l0 mids lf HL (length mids) 0%nat X1 w1) by lia.
    cbn [skipn]. rewrite firstn_all. reflexivity.
  - apply keeps_self_hidden_stages.
  - intros X2 w2. rewrite bind_getattr, Hhl.
    unfold output_stage, kleisli. apply bind_cong_self.
    + apply call_layer_at. rewrite HL.
      apply nth_error_getitem. cbn [nth_error].
      rewrite nth_error_app2 by lia. rewrite Nat.sub_diag. reflexivity.
    + unfold apply_linear. auto with frame.
    + reflexivity.
Qed.

(** C3. For a constructed network the forward pass is, for every input
    and in training mode as in evaluation mode, one fixed sequence of
    stages: the hidden stage (linear unit, activation, dropout) of unit
    [0], the hidden stages of the units [1] to [hidden_layers - 1] in
    order, then the output stage (linear unit, output activation) of the
    last unit.  The sequence is the same for all inputs. *)
Theorem forward_is_composition (a b : Z) (v : py_value) (hl : Z) (q : R)
    (act oact : tensor -> tensor) (w0 w1 : world G) (m : BackpropModule) :
  init a b v hl q act oact w0 = (inr m, w1) ->
  exists l0 mids lf,
    layers m = l0 :: mids ++ [lf] /\
    Z.of_nat (length mids) = hl - 1 /\
    forall (mode : bool) (X : tensor) (w : world G),
      forward X (train mode m, w) =
      sequential (hidden_stage l0 :: map hidden_stage mids ++ [output_stage lf])
        X (train mode m, w).
Proof.
  intros E. apply init_inr in E.
  destruct E as (hu & l0 & mids & lf & _ & _ & Hhl & _ & -> & Hmids & _).
  exists l0, mids, lf. cbn [layers].
  split; [reflexivity |]. split; [lia |].
  intros mode X w. apply forward_as_stages.
  - reflexivity.
  - cbn [train hidden_layers]. lia.
Qed.

(** ** Shapes through the forward pass *)

Lemma Linear_forward_rows (u : Linear) (X Y : tensor) :
  wf_linear u -> Linear_forward u X = inr Y ->
  length Y = length X /\
  Forall (fun row => length row = Z.to_nat (out_features u)) Y.
Proof.
  intros (_ & _ & HW & Hb). unfold Linear_forward.
  destruct (forallb _ X); [| discriminate]. intros E. injection E as <-.
  split; [apply length_map |].
  apply Forall_forall. intros row Hrow. apply in_map_iff in Hrow.
  destruct Hrow as (r & <- & _).
  rewrite length_map, length_combine, HW, Hb. apply Nat.min_id.
Qed.

Lemma Linear_forward_shape (u : Linear) (X : tensor) (B : nat) :
  wf_linear u -> has_shape X B (Z.to_nat (in_features u)) ->
  exists Y, Linear_forward u X = inr Y /\ has_shape Y B (Z.to_nat (out_features u)).
Proof.
  intros Hwf [HB Hrows].
  assert (Hall : forallb (fun row => Nat.eqb (length row) (Z.to_nat (in_features u))) X
                 = true).
  { apply forallb_forall. intros row Hrow. apply Nat.eqb_eq.
    rewrite Forall_forall in Hrows. apply Hrows. exact Hrow. }
  destruct (Linear_forward u X) as [e | Y] eqn:E.
  - unfold Linear_forward in E. rewrite Hall in E. discriminate E.
  - exists Y. split; [reflexivity |].
    destruct (Linear_forward_rows u X Y Hwf E) as [HY Hout].
    split; [congruence | exact Hout].
Qed.

Lemma mapM_total {S A B : Type} (f : A -> M S B) (P : A -> Prop) (Q : B -> Prop) :
  (forall a s, P a -> exists b s', f a s = (inr b, s') /\ Q b) ->
  forall l s, Forall P l ->
    exists bs s', mapM f l s = (inr bs, s') /\ Forall Q bs /\ length bs = length l.
Proof.
  intros Hf. induction l as [| a l IH]; intros s Hl; cbn [mapM].
  - exists [], s. repeat split. constructor.
  - inversion Hl as [| ? ? Ha Hl']; subst.
    destruct (Hf a s Ha) as (b & s1 & Eb & Hb).
    destruct (IH s1 Hl') as (bs & s2 & Ebs & HQ & Hlen).
    exists (b :: bs), s2. unfold bind. rewrite Eb, Ebs.
    split; [reflexivity |]. split; [constructor; assumption | cbn [length]; congruence].
Qed.

Lemma Dropout_forward_shape (d : Dropout) (X : tensor) (B n : nat) (w : world G) :
  is_probability (drop_p d) -> has_shape X B n ->
  exists Y w', Dropout_forward d X w = (inr Y, w') /\ has_shape Y B n.
Proof.
  unfold is_probability. intros Hq [HB Hrows]. unfold Dropout_forward. rewrite Hq.
  destruct (eqb (drop_p d) zero || negb (drop_training d) || Nat.eqb (numel X) 0).
  - exists X, w. split; [reflexivity | split; assumption].
  - destruct (eqb (drop_p d) one).
    + eexists _, w. split; [reflexivity |]. split.
      * rewrite length_map. exact HB.
      * apply Forall_map. revert Hrows. apply Forall_impl.
        intros row Hrow. rewrite length_map. exact Hrow.
    + match goal with |- context [mapM ?f X w] =>
        destruct (mapM_total f (fun row => length row = n)
                    (fun row => length row = n)) with (l := X) (s := w)
          as (Y & w' & E & HY & Hlen)
      end.
      * intros row s Hrow.
        match goal with |- context [mapM ?g row s] =>
          destruct (mapM_total g (fun _ => True) (fun _ => True))
            with (l := row) (s := s)
            as (r & s' & Er & _ & Hr)
        end.
        -- intros x s0 _. unfold bind, draw, ret.
           destruct (bernoulli (sub one (drop_p d)) (generator s0)) as [keep g'].
           eexists _, _. split; [reflexivity | exact I].
        -- apply Forall_forall. intros; exact I.
        -- exists r, s'. split; [exact Er | congruence].
      * exact Hrows.
      * exists Y, w'. split; [exact E |]. split; [congruence | exact HY].
Qed.

Lemma hidden_stage_shape (m : BackpropModule) (u : Linear) (X : tensor) (B : nat)
    (w : world G) :
  shape_preserving (activation m) -> is_probability (drop_p (dropout m)) ->
  wf_linear u -> has_shape X B (Z.to_nat (in_features u)) ->
  exists Y w', hidden_stage u X (m, w) = (inr Y, (m, w')) /\
               has_shape Y B (Z.to_nat (out_features u)).
Proof.
  intros Hact Hq Hwf HX.
  destruct (Linear_forward_shape u X B Hwf HX) as (Y1 & E1 & HY1).
  apply Hact in HY1.
  destruct (Dropout_forward_shape _ _ _ _ w Hq HY1) as (Y2 & w' & E2 & HY2).
  exists Y2, w'. split; [| exact HY2].
  unfold hidden_stage, kleisli, apply_linear, call_activation, call_dropout,
    bind, lift, getattr, ret, in_world.
  rewrite E1. cbn [fst snd]. rewrite E2. reflexivity.
Qed.

Lemma hidden_stages_shape (m : BackpropModule) (us : list Linear) :
  shape_preserving (activation m) -> is_probability (drop_p (dropout m)) ->
  forall (a c : Z) (X : tensor) (B : nat) (w : world G),
    chain a us c -> has_shape X B (Z.to_nat a) ->
    exists Y w', sequential (map hidden_stage us) X (m, w) = (inr Y, (m, w')) /\
                 has_shape Y B (Z.to_nat c).
Proof.
  intros Hact Hq. induction us as [| u us IH]; intros a c X B w Hc HX.
  - cbn in Hc. subst c. exists X, w. split; [reflexivity | exact HX].
  - destruct Hc as (Hin & Hwf & Hc). rewrite <- Hin in HX.
    destruct (hidden_stage_shape m u X B w Hact Hq Hwf HX) as (Y1 & w1 & E1 & HY1).
    destruct (IH _ _ Y1 B w1 Hc HY1) as (Y & w' & E & HY).
    exists Y, w'. split; [| exact HY].
    cbn [map sequential]. unfold kleisli. unfold bind at 1. rewrite E1. exact E.
Qed.

Lemma chain_snoc_inv (us : list Linear) (lf : Linear) :
  forall (a b : Z), chain a (us ++ [lf]) b ->
    chain a us (in_features lf) /\ wf_linear lf /\ out_features lf = b.
Proof.
  induction us as [| u us IH]; intros a b Hc.
  - destruct Hc as (Hin & Hwf & Hout). cbn in Hout. cbn. auto.
  - destruct Hc as (Hin & Hwf & Hc). apply IH in Hc.
    destruct Hc as (Hc & Hwff & Hout). cbn [chain]. auto.
Qed.

(** The pass on an object whose units form a chain: it succeeds on a
    batch of the width of the chain's entry, and what it returns is the
    output activation of a batch of the width of the chain's exit. *)
Lemma forward_shape (m : BackpropModule) (l0 : Linear) (mids : list Linear)
    (lf : Linear) (a b : Z) :
  layers m = l0 :: mids ++ [lf] ->
  hidden_layers m = Z.of_nat (S (length mids)) ->
  chain a (layers m) b ->
  shape_preserving (activation m) -> is_probability (drop_p (dropout m)) ->
  forall (X : tensor) (B : nat) (w : world G),
    has_shape X B (Z.to_nat a) ->
    exists Z w', forward X (m, w) = (inr (output_activation m Z), (m, w')) /\
                 has_shape Z B (Z.to_nat b).
Proof.
  intros HL Hhl Hc Hact Hq X B w HX.
  rewrite (forward_as_stages m l0 mids lf HL Hhl).
  change (hidden_stage l0 :: map hidden_stage mids ++ [output_stage lf])
    with (map hidden_stage (l0 :: mids) ++ [output_stage lf]).
  rewrite sequential_snoc.
  rewrite HL in Hc. change (l0 :: mids ++ [lf]) with ((l0 :: mids) ++ [lf]) in Hc.
  apply chain_snoc_inv in Hc. destruct Hc as (Hc & Hwf & Hout).
  destruct (hidden_stages_shape m (l0 :: mids) Hact Hq _ _ X B w Hc HX)
    as (Y1 & w1 & E1 & HY1).
  destruct (Linear_forward_shape lf Y1 B Hwf HY1) as (Z & EZ & HZ).
  exists Z, w1. unfold bind at 1. rewrite E1. rewrite Hout in HZ. split; [| exact HZ].
  unfold output_stage, kleisli, apply_linear, call_output_activation, bind, lift,
    getattr, ret.
  rewrite EZ. reflexivity.
Qed.

(** A constructed network, in training mode or in evaluation mode, meets
    what [forward_shape] asks for. *)
Lemma init_forward_shape (a b : Z) (v : py_value) (hl : Z) (q : R)
    (act oact : tensor -> tensor) (w0 w1 : world G) (m : BackpropModule) :
  init a b v hl q act oact w0 = (inr m, w1) ->
  shape_preserving act ->
  forall (mode : bool) (X : tensor) (B : nat) (w : world G),
    has_shape X B (Z.to_nat a) ->
    exists Z w', forward X (train mode m, w) = (inr (oact Z), (train mode m, w')) /\
                 has_shape Z B (Z.to_nat b).
Proof.
  intros E Hact mode X B w HX.
  destruct (init_chain _ _ _ _ _ _ _ _ _ _ E) as [Hchain _].
  apply init_inr in E.
  destruct E as (hu & l0 & mids & lf & _ & _ & Hhl & Hq & -> & Hmids & _).
  cbn [layers] in Hchain.
  match goal with
  | |- context [forward X (?m', w)] =>
      apply (forward_shape m' l0 mids lf a b); try assumption
  end.
  - reflexivity.
  - cbn [train hidden_layers]. lia.
Qed.

(** C4. For every configuration that constructs a network, with
    activations that keep shapes, and every [B >= 1]: the forward pass on
    a batch of [B] rows of [input_dim] entries returns, and returns a
    batch of [B] rows of [output_dim] entries, in training mode as in
    evaluation mode. *)
Theorem forward_output_shape (a b : Z) (v : py_value) (hl : Z) (q : R)
    (act oact : tensor -> tensor) (w0 w1 : world G) (m : BackpropModule)
    (B : nat) (X : tensor) :
  init a b v hl q act oact w0 = (inr m, w1) ->
  shape_preserving act -> shape_preserving oact ->
  (1 <= B)%nat -> has_shape X B (Z.to_nat a) ->
  forall (mode : bool) (w : world G),
    exists Y w', forward X (train mode m, w) = (inr Y, (train mode m, w')) /\
                 has_shape Y B (Z.to_nat b).
Proof.
  intros E Hact Hoact _ HX mode w.
  destruct (init_forward_shape _ _ _ _ _ _ _ _ _ _ E Hact mode X B w HX)
    as (Z & w' & EZ & HZ).
  exists (oact Z), w'. split; [exact EZ | apply Hoact; exact HZ].
Qed.

(** What [forward] returns is the output activation of a batch whose rows
    have [out_features] entries, the ones of the last unit. *)
Lemma forward_ends_with_output_activation (m : BackpropModule) (l0 : Linear)
    (mids : list Linear) (lf : Linear) :
  layers m = l0 :: mids ++ [lf] ->
  hidden_layers m = Z.of_nat (S (length mids)) ->
  wf_linear lf ->
  forall (X Y : tensor) (w : world G) (h' : heap),
    forward X (m, w) = (inr Y, h') ->
    exists Z, Y = output_activation m Z /\
              Forall (fun row => length row = Z.to_nat (out_features lf)) Z.
Proof.
  intros HL Hhl Hwf X Y w h' E.
  rewrite (forward_as_stages m l0 mids lf HL Hhl) in E.
  change (hidden_stage l0 :: map hidden_stage mids ++ [output_stage lf])
    with (map hidden_stage (l0 :: mids) ++ [output_stage lf]) in E.
  rewrite sequential_snoc in E.
  apply bind_inr in E. destruct E as (X1 & [m1 w1] & E1 & E).
  assert (Hm1 : m1 = m).
  { pose proof (keeps_self_hidden_stages (l0 :: mids) X (m, w)) as H.
    rewrite E1 in H. exact H. }
  subst m1.
  unfold output_stage, kleisli, apply_linear in E.
  apply bind_inr in E. destruct E as (Z & h1 & EZ & E).
  apply lift_inr in EZ. destruct EZ as [EZ ->].
  unfold call_output_activation, bind, getattr, ret in E. cbn [fst] in E.
  injection E as <- _.
  exists Z. split; [reflexivity |].
  apply (Linear_forward_rows lf X1 Z Hwf EZ).
Qed.

(** C8. When the output activation is normalizing, every row of what the
    forward pass of a constructed network returns is a distribution: no
    entry is negative and the sum is one, whatever "one" is for the
    scalars (the tolerance is a parameter).  For [input_dim=4],
    [output_dim=3], [hidden_units=[8]], [hidden_layers=1],
    [dropout_percent=0] and a batch of 2 rows of 4 entries the pass
    returns 2 rows of 3 entries, each of them a distribution. *)
Theorem forward_rows_are_distributions (near_one : R -> Prop) :
  (forall (a b : Z) (v : py_value) (hl : Z) (q : R) (act oact : tensor -> tensor)
          (w0 w1 : world G) (m : BackpropModule),
      init a b v hl q act oact w0 = (inr m, w1) ->
      0 < b -> normalizing near_one oact ->
      forall (mode : bool) (X Y : tensor) (w : world G) (h' : heap),
        forward X (train mode m, w) = (inr Y, h') ->
        Forall (prob_row near_one) Y) /\
  (forall (act oact : tensor -> tensor) (w0 w1 : world G) (m : BackpropModule),
      init 4 3 (PyList [8]) 1 zero act oact w0 = (inr m, w1) ->
      shape_preserving act -> shape_preserving oact ->
      normalizing near_one oact ->
      forall (mode : bool) (X : tensor) (w : world G),
        has_shape X 2 4 ->
        exists Y w',
          forward X (train mode m, w) = (inr Y, (train mode m, w')) /\
          has_shape Y 2 3 /\ Forall (prob_row near_one) Y).
Proof.
  assert (Hrows : forall (n : nat) (Z : tensor),
             (0 < n)%nat -> Forall (fun row => length row = n) Z ->
             Forall (fun row => row <> []) Z).
  { intros n Z Hn. apply Forall_impl. intros row Hrow Hnil.
    rewrite Hnil in Hrow. cbn in Hrow. lia. }
  split.
  - intros a b v hl q act oact w0 w1 m E Hb Hnorm mode X Y w h' EY.
    apply init_inr in E.
    destruct E as (hu & l0 & mids & lf & _ & _ & Hhl & _ & -> & Hmids & _ & _ & Hf).
    destruct Hf as (_ & Hout & Hwf).
    match type of EY with
    | forward X (?m', w) = _ =>
        assert (Hlen : hidden_layers m' = Z.of_nat (S (length mids)))
          by (cbn [train hidden_layers]; lia);
        destruct (forward_ends_with_output_activation m' l0 mids lf eq_refl
                    Hlen Hwf X Y w h' EY) as (Z & -> & HZ)
    end.
    cbn [train output_activation]. apply Hnorm.
    apply (Hrows (Z.to_nat (out_features lf))); [lia | exact HZ].
  - intros act oact w0 w1 m E Hact Hoact Hnorm mode X w HX.
    destruct (init_forward_shape _ _ _ _ _ _ _ _ _ _ E Hact mode X 2%nat w HX)
      as (Z & w' & EZ & HZ).
    exists (oact Z), w'. split; [exact EZ |]. split; [apply Hoact; exact HZ |].
    apply Hnorm. apply (Hrows 3%nat); [lia | apply HZ].
Qed.

(** * Further properties of construction *)

(** ** Every unit of a constructed network *)

Lemma replicateM_Forall {S A : Type} (c : M S A) (P : A -> Prop) :
  (forall s a s', c s = (inr a, s') -> P a) ->
  forall n s l s', replicateM n c s = (inr l, s') -> Forall P l.
Proof.
  intros Hc. induction n as [| n IH]; cbn [replicateM]; intros s l s' H.
  - inv_ret H. constructor.
  - inv_bind H as a Ha. inv_bind H as l0 Hl0. inv_ret H.
    constructor; [eapply Hc; exact Ha | eapply IH; exact Hl0].
Qed.

Lemma Linear_init_sized (a b : Z) (dev : string) (w w' : world G) (u : Linear) :
  Linear_init a b dev w = (inr u, w') ->
  parameters_sized u /\ linear_device u = dev.
Proof.
  intros E. pose proof (Linear_init_inr a b dev w u w' E) as (Hin & Hout & Hwf & Hdev).
  split; [| exact Hdev].
  unfold Linear_init in E.
  destruct (negb (fits_int64 a && fits_int64 b)); [discriminate E |].
  destruct ((a <? 0) || (b <? 0)); [discriminate E |].
  inv_bind E as failure Ef. injection Ef as <- <-.
  destruct (allocation_failure w dev b a); [discriminate E |].
  inv_bind E as wt Ew. inv_bind E as bs Ebs. inv_ret E.
  unfold parameters_sized. cbn [weight bias in_features out_features].
  split; [split |].
  - eapply replicateM_length. exact Ew.
  - eapply replicateM_Forall; [| exact Ew].
    intros s0 row s1 Hrow. eapply replicateM_length. exact Hrow.
  - eapply replicateM_length. exact Ebs.
Qed.

Lemma init_loop_Forall (P : Linear -> Prop) (hu : list Z) (dev : string) :
  (forall x y s u s', Linear_init x y dev s = (inr u, s') -> P u) ->
  forall (l : list Z) (acc : list Linear) w ls w',
    for_each l
      (fun layer ls =>
         a <- hidden_units_getitem (PyList hu) (layer - 1) ;;
         b <- hidden_units_getitem (PyList hu) layer ;;
         l <- Linear_init a b dev ;;
         ret (ls ++ [l]))
      acc w = (inr ls, w') ->
    Forall P acc -> Forall P ls.
Proof.
  intros HP. induction l as [| i l IH]; cbn [for_each]; intros acc w ls w' E Hacc.
  - inv_ret E. exact Hacc.
  - inv_bind E as acc1 Ebody.
    inv_bind Ebody as x Ea. inv_bind Ebody as y Eb. inv_bind Ebody as u Eu.
    inv_ret Ebody.
    apply (IH _ _ _ _ E). apply Forall_app. split; [exact Hacc |].
    constructor; [| constructor]. eapply HP. exact Eu.
Qed.

(** What holds of every unit [nn.Linear] returns for the device selected
    at construction holds of every unit of the network. *)
Lemma init_layers_Forall (P : Linear -> Prop) (a b : Z) (v : py_value) (hl : Z) (q : R)
    (act oact : tensor -> tensor) (w w' : world G) (m : BackpropModule) :
  init a b v hl q act oact w = (inr m, w') ->
  (forall x y s u s',
      Linear_init x y (if cuda_is_available w then "cuda" else "cpu")%string s
      = (inr u, s') -> P u) ->
  Forall P (layers m).
Proof.
  unfold init. intros E HP. inv_bind E as d Ed.
  unfold Dropout_init in Ed.
  destruct (ltb q zero || ltb one q); [discriminate Ed |].
  unfold ret in Ed. injection Ed as <- <-.
  inv_bind E as dev Edev. injection Edev as <- <-.
  destruct v as [k | hu | hu]; cbn [isinstance_list negb orb] in E;
    [discriminate E | | discriminate E].
  destruct (len_differs (PyList hu) hl); [discriminate E |].
  inv_bind E as h0 E0. apply lift_inr in E0. destruct E0 as [E0 ->].
  inv_bind E as l0 El0.
  inv_bind E as ls Els.
  inv_bind E as hlast Elast. apply lift_inr in Elast. destruct Elast as [Elast ->].
  inv_bind E as lf Elf.
  unfold ret in E. injection E as <- _. cbn [layers].
  apply Forall_app. split.
  - apply (init_loop_Forall P hu _ HP _ _ _ _ _ Els).
    constructor; [| constructor]. eapply HP. exact El0.
  - constructor; [| constructor]. eapply HP. exact Elf.
Qed.

(** X1. The constructed object holds the arguments it was given, its
    dropout unit starts in training mode, its device is ["cuda"] when an
    accelerator is available and ["cpu"] otherwise, and every linear unit
    was allocated on that device. *)
Theorem init_attributes_and_device (a b : Z) (v : py_value) (hl : Z) (q : R)
    (act oact : tensor -> tensor) (w w' : world G) (m : BackpropModule) :
  init a b v hl q act oact w = (inr m, w') ->
  input_dim m = a /\ output_dim m = b /\ hidden_units m = v /\ hidden_layers m = hl /\
  drop_p (dropout m) = q /\ drop_training (dropout m) = true /\
  activation m = act /\ output_activation m = oact /\
  device m = (if cuda_is_available w then "cuda" else "cpu")%string /\
  Forall (fun u => linear_device u = device m) (layers m).
Proof.
  intros E.
  assert (Hdev : Forall (fun u => linear_device u
                                  = (if cuda_is_available w then "cuda" else "cpu")%string)
                   (layers m)).
  { apply (init_layers_Forall _ _ _ _ _ _ _ _ _ _ _ E).
    intros x y s u s' Hu. apply (Linear_init_sized _ _ _ _ _ _ Hu). }
  apply init_inr in E.
  destruct E as (hu & l0 & mids & lf & _ & _ & _ & _ & -> & _).
  cbn [input_dim output_dim hidden_units hidden_layers dropout drop_p drop_training
       activation output_activation device layers] in *.
  repeat (split; [reflexivity |]). exact Hdev.
Qed.

(** ** Sizes and parameters of a constructed network *)

Lemma mids_sizes (hu : list Z) (mids : list Linear) :
  forall (j : nat),
    (forall i u, nth_error mids i = Some u ->
       getitem hu (Z.of_nat (j + i)) = inr (in_features u) /\
       getitem hu (1 + Z.of_nat (j + i)) = inr (out_features u) /\ wf_linear u) ->
    length hu = (j + length mids + 1)%nat ->
    layer_sizes mids = combine (skipn j hu) (skipn (S j) hu).
Proof.
  induction mids as [| u mids IH]; intros j Hmids Hlen.
  - cbn [length] in Hlen. rewrite (skipn_all2 hu (n := S j)) by lia.
    destruct (skipn j hu); reflexivity.
  - destruct (Hmids 0%nat u eq_refl) as (Hin & Hout & _).
    rewrite Nat.add_0_r in Hin, Hout.
    replace (1 + Z.of_nat j) with (Z.of_nat (S j)) in Hout by lia.
    apply getitem_of_nat in Hin, Hout.
    rewrite (skipn_nth_error hu j _ Hin).
    rewrite (skipn_nth_error hu (S j) _ Hout) at 2.
    change (layer_sizes (u :: mids))
      with ((in_features u, out_features u) :: layer_sizes mids).
    cbn [combine]. f_equal.
    apply IH.
    + intros i v Hv. specialize (Hmids (S i) v Hv).
      rewrite Nat.add_succ_r in Hmids. exact Hmids.
    + cbn [length] in Hlen. lia.
Qed.

Lemma consecutive_snoc (l : list Z) :
  forall (d x z : Z),
    nth_error (d :: l) (length l) = Some z ->
    consecutive ((d :: l) ++ [x]) = consecutive (d :: l) ++ [(z, x)].
Proof.
  induction l as [| d' l IH]; intros d x z Hz.
  - cbn in Hz. injection Hz as <-. reflexivity.
  - cbn [length nth_error] in Hz. specialize (IH d' x z Hz).
    unfold consecutive in *. cbn [app tl combine] in *. rewrite IH. reflexivity.
Qed.

(** The sizes of the units of a constructed network are the pairs of
    neighbours of [input_dim], the entries of [hidden_units],
    [output_dim]. *)
Lemma init_layer_sizes (a b : Z) (hu : list Z) (hl : Z) (q : R)
    (act oact : tensor -> tensor) (w w' : world G) (m : BackpropModule) :
  init a b (PyList hu) hl q act oact w = (inr m, w') ->
  layer_sizes (layers m) = consecutive (a :: hu ++ [b]).
Proof.
  intros E. apply init_inr in E.
  destruct E as (hu' & l0 & mids & lf & Hv & Hlen & Hhl & _ & -> & Hmids & H0 & Hk & Hf).
  injection Hv as <-.
  destruct H0 as (Hin0 & Hout0 & _). destruct Hf as (Hinf & Houtf & _).
  cbn [layers].
  apply getitem_last in Hinf. destruct Hinf as [Hinf Hpos].
  change (a :: hu ++ [b]) with ((a :: hu) ++ [b]).
  rewrite (consecutive_snoc hu a b (in_features lf))
    by (destruct hu as [| h hu']; [cbn in Hpos; lia |];
        replace (length (h :: hu') - 1)%nat with (length hu') in Hinf
          by (cbn [length]; lia);
        cbn [length nth_error]; exact Hinf).
  change (Z.of_nat 0) with 0 in Hout0.
  assert (Hsz : layer_sizes mids = combine (skipn 0 hu) (skipn 1 hu))
    by (apply mids_sizes; [exact Hk | lia]).
  destruct hu as [| h0 hu']; [cbn in Hpos; lia |].
  cbn in Hout0. injection Hout0 as Hout0.
  unfold layer_sizes in *. rewrite map_cons, map_app. cbn [map].
  rewrite Hsz, Hin0, Houtf, <- Hout0. reflexivity.
Qed.

Lemma numel_has_shape (X : tensor) (B n : nat) :
  has_shape X B n -> numel X = (B * n)%nat.
Proof.
  intros [HB Hrows]. subst B. induction Hrows as [| row X Hrow _ IH]; cbn.
  - reflexivity.
  - unfold numel in IH. rewrite IH, Hrow. reflexivity.
Qed.

(** X2. In a constructed network every unit holds a weight of
    [out_features] rows of [in_features] entries and a bias of
    [out_features] entries, and the number of parameters of the network
    is the sum of [(x + 1) * y] over the pairs [(x, y)] of neighbours of
    [input_dim], the entries of [hidden_units], [output_dim]. *)
Theorem init_parameters (a b : Z) (hu : list Z) (hl : Z) (q : R)
    (act oact : tensor -> tensor) (w w' : world G) (m : BackpropModule) :
  init a b (PyList hu) hl q act oact w = (inr m, w') ->
  Forall parameters_sized (layers m) /\
  Z.of_nat (num_parameters m) =
  fold_right (fun xy n => (fst xy + 1) * snd xy + n) 0 (consecutive (a :: hu ++ [b])).
Proof.
  intros E.
  assert (H : Forall (fun u => wf_linear u /\ parameters_sized u) (layers m)).
  { apply (init_layers_Forall _ _ _ _ _ _ _ _ _ _ _ E).
    intros x y s u s' Hu. split.
    - apply (Linear_init_inr _ _ _ _ _ _ Hu).
    - apply (Linear_init_sized _ _ _ _ _ _ Hu). }
  split.
  - revert H. apply Forall_impl. intros u [_ Hu]. exact Hu.
  - rewrite <- (init_layer_sizes _ _ _ _ _ _ _ _ _ _ E).
    unfold num_parameters. induction H as [| u ls [Hwf [HW Hb]] _ IH]; cbn.
    + reflexivity.
    + unfold layer_sizes in IH. rewrite <- IH.
      unfold unit_parameters. rewrite (numel_has_shape _ _ _ HW), Hb.
      destruct Hwf as (Hi & Ho & _). nia.
Qed.

(** ** The outcomes of construction *)

Lemma fits_int64_valid (x : Z) : fits_int64 x = true -> 0 <= x -> valid_width x.
Proof.
  unfold fits_int64, valid_width. intros H Hx.
  apply andb_true_iff in H. destruct H as [_ H]. apply Z.ltb_lt in H. lia.
Qed.

Lemma valid_fits_int64 (x : Z) : valid_width x -> fits_int64 x = true.
Proof.
  unfold fits_int64, valid_width. intros Hx. apply andb_true_iff. split.
  - apply Z.leb_le. lia.
  - apply Z.ltb_lt. lia.
Qed.

(** The three ways [nn.Linear] fails, none of which changes the world. *)
Lemma Linear_init_inl (a b : Z) (dev : string) (w w' : world G) (e : exn) :
  Linear_init a b dev w = (inl e, w') ->
  w' = w /\
  ((e = overflow_error /\ (fits_int64 a = false \/ fits_int64 b = false)) \/
   (e = negative_dimension_error /\ fits_int64 a = true /\ fits_int64 b = true /\
    (a < 0 \/ b < 0)) \/
   (exists msg, e = RuntimeError msg /\ valid_width a /\ valid_width b /\
                allocation_failure w dev b a = Some msg)).
Proof.
  unfold Linear_init. intros E.
  destruct (fits_int64 a) eqn:Hfa; [destruct (fits_int64 b) eqn:Hfb |]; cbn [andb negb] in E.
  - destruct (Z.ltb_spec a 0) as [Ha | Ha]; [| destruct (Z.ltb_spec b 0) as [Hb | Hb]];
      cbn [orb] in E.
    + injection E as <- <-. split; [reflexivity |]. right. left. auto.
    + injection E as <- <-. split; [reflexivity |]. right. left. auto.
    + unfold bind at 1 in E.
      destruct (allocation_failure w dev b a) as [msg |] eqn:Halloc.
      * injection E as <- <-. split; [reflexivity |]. right. right.
        exists msg. split; [reflexivity |].
        split; [apply fits_int64_valid; assumption |].
        split; [apply fits_int64_valid; assumption | reflexivity].
      * exfalso.
        destruct (Linear_init_total a b dev w (fits_int64_valid a Hfa Ha)
                    (fits_int64_valid b Hfb Hb) Halloc) as (u & w1 & Eu).
        unfold Linear_init in Eu. rewrite Hfa, Hfb in Eu. cbn [andb negb] in Eu.
        destruct (Z.ltb_spec a 0); [lia |]. destruct (Z.ltb_spec b 0); [lia |].
        cbn [orb] in Eu. unfold bind at 1 in Eu. rewrite Halloc in Eu.
        rewrite Eu in E. discriminate E.
  - injection E as <- <-. split; [reflexivity |]. left. auto.
  - injection E as <- <-. split; [reflexivity |]. left. auto.
Qed.




(** The loop of [__init__], when its indices are in range, stops only
    where [nn.Linear] fails, on two neighbours of [hidden_units]. *)
Lemma init_loop_inl (hu : list Z) (dev : string) :
  forall (n j : nat) (acc : list Linear) (w w' : world G) (e : exn),
    (j + n < length hu)%nat ->
    for_each (map (fun k => 1 + Z.of_nat k) (seq j n))
      (fun layer ls =>
         a <- hidden_units_getitem (PyList hu) (layer - 1) ;;
         b <- hidden_units_getitem (PyList hu) layer ;;
         l <- Linear_init a b dev ;;
         ret (ls ++ [l]))
      acc w = (inl e, w') ->
    exists k x y w0,
      nth_error hu k = Some x /\ nth_error hu (S k) = Some y /\
      Linear_init x y dev w0 = (inl e, w0).
Proof.
  induction n as [| n IH]; intros j acc w w' e Hj E; cbn [seq map for_each] in E.
  - discriminate E.
  - destruct (getitem_in_range hu j ltac:(lia)) as (x & Ex & Hx).
    destruct (getitem_in_range hu (S j) ltac:(lia)) as (y & Ey & Hy).
    unfold bind at 1 in E. unfold bind at 1 in E.
    cbn [hidden_units_getitem] in E. unfold lift at 1 in E.
    replace (1 + Z.of_nat j - 1) with (Z.of_nat j) in E by lia. rewrite Ex in E.
    unfold bind at 1 in E. unfold lift at 1 in E.
    replace (1 + Z.of_nat j) with (Z.of_nat (S j)) in E by lia. rewrite Ey in E.
    unfold bind at 1 in E.
    destruct (Linear_init x y dev w) as [[e1 | u] w1] eqn:Eu.
    + injection E as <- <-.
      pose proof (Linear_init_inl x y dev w w1 e1 Eu) as [-> _].
      exists j, x, y, w. split; [apply getitem_of_nat; exact Ex |].
      split; [apply getitem_of_nat; exact Ey | exact Eu].
    + unfold ret at 1 in E. apply (IH (S j) _ _ _ _ ltac:(lia) E).
Qed.

(** Once the check has passed on a list that is not empty, construction
    fails only where [nn.Linear] fails, on two neighbours of the list
    [input_dim], [hidden_units]..., [output_dim]. *)
Lemma init_inl_after_check (a b : Z) (hu : list Z) (q : R)
    (act oact : tensor -> tensor) (w w' : world G) (e : exn) :
  is_probability q -> hu <> [] ->
  init a b (PyList hu) (Z.of_nat (length hu)) q act oact w = (inl e, w') ->
  exists x y dev w0,
    In (x, y) (consecutive (a :: hu ++ [b])) /\
    Linear_init x y dev w0 = (inl e, w0).
Proof.
  unfold is_probability. intros Hq Hne E.
  assert (Hlen : (0 < length hu)%nat) by (destruct hu; [contradiction | cbn; lia]).
  unfold init, Dropout_init in E. rewrite Hq in E.
  unfold bind at 1 in E. unfold ret at 1 in E. unfold bind at 1 in E.
  cbn [isinstance_list len_differs negb orb] in E. rewrite Z.eqb_refl in E.
  cbn [negb hidden_units_getitem] in E.
  destruct (getitem_in_range hu 0 Hlen) as (h0 & E0 & H0).
  unfold bind at 1 in E. unfold lift at 1 in E.
  change (Z.of_nat 0) with 0 in E0. rewrite E0 in E.
  change 0 with (Z.of_nat 0) in E0. apply getitem_of_nat in E0.
  unfold bind at 1 in E.
  match type of E with context [Linear_init a h0 ?d w] => set (dev := d) in * end.
  destruct (Linear_init a h0 dev w) as [[e1 | l0] w1] eqn:El0.
  { injection E as <- <-.
    pose proof (Linear_init_inl a h0 dev w w1 e1 El0) as [-> _].
    exists a, h0, dev, w. split; [| exact El0].
    apply (consecutive_nth _ 0%nat); [reflexivity | apply nth_error_dims; exact E0]. }
  unfold bind at 1 in E. unfold range in E.
  replace (Z.to_nat (Z.of_nat (length hu) - 1)) with (length hu - 1)%nat in E by lia.
  match type of E with context [for_each ?l ?f ?acc w1] =>
    destruct (for_each l f acc w1) as [[e2 | ls] w2] eqn:Els
  end.
  { injection E as <- <-.
    apply (init_loop_inl hu dev (length hu - 1) 0) in Els; [| lia].
    destruct Els as (k & x & y & w0 & Hx & Hy & Eu).
    exists x, y, dev, w0. split; [| exact Eu].
    apply (consecutive_nth _ (S k)); apply nth_error_dims; assumption. }
  destruct (getitem_in_range hu (length hu - 1) ltac:(lia)) as (hl & El & Hl).
  assert (El' : getitem hu (-1) = inr hl).
  { unfold getitem in *.
    destruct (Z.ltb_spec (-1) (- Z.of_nat (length hu))); [lia |].
    destruct (Z.leb_spec (Z.of_nat (length hu)) (-1)); [lia |].
    destruct (Z.ltb_spec (Z.of_nat (length hu - 1)) (- Z.of_nat (length hu))); [lia |].
    destruct (Z.leb_spec (Z.of_nat (length hu)) (Z.of_nat (length hu - 1))); [lia |].
    cbn [orb] in *. change (-1 <? 0) with true. cbv iota.
    destruct (Z.ltb_spec (Z.of_nat (length hu - 1)) 0); [lia |].
    replace (Z.to_nat (-1 + Z.of_nat (length hu)))
      with (Z.to_nat (Z.of_nat (length hu - 1))) by lia.
    exact El. }
  unfold bind at 1 in E. unfold lift at 1 in E. rewrite El' in E.
  unfold bind at 1 in E.
  destruct (Linear_init hl b dev w2) as [[e3 | lf] w3] eqn:Elf.
  - injection E as <- <-.
    pose proof (Linear_init_inl hl b dev w2 w3 e3 Elf) as [-> _].
    exists hl, b, dev, w2. split; [| exact Elf].
    assert (Hk : S (length hu - 1) = length hu) by lia.
    apply (consecutive_nth _ (S (length hu - 1))).
    + apply nth_error_dims. apply (getitem_of_nat hu _ hl El).
    + rewrite Hk. apply nth_error_dims_last.
  - discriminate E.
Qed.



(** X4. When [dropout_percent] is a probability, construction raises the
    configuration mismatch exactly when [hidden_units] is not a list or
    is a list whose length is not [hidden_layers]: a list of the right
    length never gives this error, whatever it holds. *)
Theorem init_config_mismatch_iff (a b : Z) (v : py_value) (hl : Z) (q : R)
    (act oact : tensor -> tensor) (w : world G) :
  is_probability q ->
  ((exists w', init a b v hl q act oact w = (inl config_mismatch, w')) <->
   (isinstance_list v = false \/
    exists hu, v = PyList hu /\ Z.of_nat (length hu) <> hl)).
Proof.
  intros Hq. split.
  - intros (w' & E).
    destruct v as [k | hu | hu]; [left; reflexivity | | left; reflexivity].
    right. exists hu. split; [reflexivity |]. intros <-.
    destruct hu as [| h hu'].
    + unfold is_probability in Hq. unfold init, Dropout_init in E. rewrite Hq in E.
      discriminate E.
    + apply init_inl_after_check in E; [| exact Hq | discriminate].
      destruct E as (x & y & dev & w0 & _ & Eu).
      apply Linear_init_inl in Eu.
      destruct Eu as (_ & [[Eu _] | [[Eu _] | (msg & Eu & _)]]); discriminate Eu.
  - intros Hv. exists w.
    apply init_check_fails_ValueError; [| exact Hq].
    destruct Hv as [Hv | (hu & -> & Hlen)].
    + rewrite Hv. reflexivity.
    + cbn. destruct (Z.eqb_spec (Z.of_nat (length hu)) hl); [contradiction | reflexivity].
Qed.


(** X6. The exceptions construction can end with: the one of
    [nn.Dropout] on a probability out of range, the configuration
    mismatch when the check fails, the [IndexError] of [hidden_units[0]]
    on the empty list, and, once the check has passed on a list that is
    not empty, an exception of [nn.Linear] on two neighbouring widths: a
    size that does not fit, a negative size, or a failed allocation. *)
Theorem init_errors (a b : Z) (v : py_value) (hl : Z) (q : R)
    (act oact : tensor -> tensor) (w w' : world G) (e : exn) :
  init a b v hl q act oact w = (inl e, w') ->
  (e = dropout_range_error /\ ~ is_probability q) \/
  (e = config_mismatch /\ is_probability q /\
   negb (isinstance_list v) || len_differs v hl = true) \/
  (e = index_error /\ is_probability q /\ v = PyList [] /\ hl = 0) \/
  (is_probability q /\
   exists hu, v = PyList hu /\ Z.of_nat (length hu) = hl /\ hu <> [] /\
     exists x y, In (x, y) (consecutive (a :: hu ++ [b])) /\
       ((e = overflow_error /\ (fits_int64 x = false \/ fits_int64 y = false)) \/
        (e = negative_dimension_error /\ (x < 0 \/ y < 0)) \/
        (exists msg w0 dev, e = RuntimeError msg /\ valid_width x /\ valid_width y /\
                            allocation_failure w0 dev y x = Some msg))).
Proof.
  intros E.
  destruct (negb (isinstance_list v) || len_differs v hl) eqn:Hcheck.
  - rewrite (init_check_fails a b v hl q act oact w Hcheck) in E.
    unfold is_probability. destruct (ltb q zero || ltb one q); injection E as <- _.
    + left. split; [reflexivity | discriminate].
    + right. left. auto.
  - destruct v as [k | hu | hu]; try discriminate Hcheck.
    cbn in Hcheck. apply negb_false_iff, Z.eqb_eq in Hcheck. subst hl.
    destruct (ltb q zero || ltb one q) eqn:Hq.
    + left. unfold init, Dropout_init in E. rewrite Hq in E. injection E as <- _.
      split; [reflexivity |]. unfold is_probability. rewrite Hq. discriminate.
    + destruct hu as [| h hu'].
      * right. right. left. unfold init, Dropout_init in E. rewrite Hq in E.
        injection E as <- _. auto.
      * right. right. right. split; [exact Hq |].
        apply init_inl_after_check in E; [| exact Hq | discriminate].
        destruct E as (x & y & dev & w0 & Hin & Eu).
        exists (h :: hu'). split; [reflexivity |]. split; [reflexivity |].
        split; [discriminate |]. exists x, y. split; [exact Hin |].
        apply Linear_init_inl in Eu.
        destruct Eu as (_ & [[-> Hf] | [(-> & _ & _ & Hn) | (msg & -> & Hvx & Hvy & Hfail)]]).
        -- left. auto.
        -- right. left. auto.
        -- right. right. exists msg, w0, dev. auto.
Qed.

(** * Further properties of the forward pass *)

(** ** The pass when nothing is dropped *)

Lemma hidden_stage_off (m : BackpropModule) (u : Linear) (X : tensor) (w : world G) :
  dropout_is_off m -> is_probability (drop_p (dropout m)) ->
  hidden_stage u X (m, w) =
  (match Linear_forward u X with
   | inl e => inl e
   | inr Y => inr (activation m Y)
   end, (m, w)).
Proof.
  unfold is_probability. intros Hoff Hq.
  unfold hidden_stage, kleisli, apply_linear, call_activation, call_dropout,
    bind, lift, getattr, ret, in_world.
  destruct (Linear_forward u X) as [e | Y]; [reflexivity |].
  cbn [fst snd]. rewrite (Dropout_forward_off _ _ w Hoff), Hq. reflexivity.
Qed.

Lemma output_stage_run (m : BackpropModule) (u : Linear) (X : tensor) (w : world G) :
  output_stage u X (m, w) =
  (match Linear_forward u X with
   | inl e => inl e
   | inr Y => inr (output_activation m Y)
   end, (m, w)).
Proof.
  unfold output_stage, kleisli, apply_linear, call_output_activation,
    bind, lift, getattr, ret.
  destruct (Linear_forward u X) as [e | Y]; reflexivity.
Qed.

Lemma stages_off (m : BackpropModule) (lf : Linear) (us : list Linear) :
  dropout_is_off m -> is_probability (drop_p (dropout m)) ->
  forall (X : tensor) (w : world G),
    sequential (map hidden_stage us ++ [output_stage lf]) X (m, w) =
    (mlp (activation m) (output_activation m) (us ++ [lf]) X, (m, w)).
Proof.
  intros Hoff Hq. induction us as [| u us IH]; intros X w.
  - cbn [map app sequential mlp]. unfold kleisli, bind.
    rewrite output_stage_run. destruct (Linear_forward lf X); reflexivity.
  - cbn [map app sequential mlp]. unfold kleisli. unfold bind at 1.
    rewrite (hidden_stage_off m u X w Hoff Hq).
    destruct (Linear_forward u X) as [e | Y]; [reflexivity |].
    rewrite IH. destruct us; reflexivity.
Qed.

(** X7. With dropout off (evaluation mode, or a probability of [0]) the
    forward pass of a constructed network is the network as a function
    of its input: every unit but the last followed by the activation,
    the last one by the output activation.  It reads nothing of the
    world and leaves the generator where it was. *)
Theorem forward_off_is_mlp (a b : Z) (v : py_value) (hl : Z) (q : R)
    (act oact : tensor -> tensor) (w0 w1 : world G) (m : BackpropModule)
    (mode : bool) :
  init a b v hl q act oact w0 = (inr m, w1) ->
  mode = false \/ eqb q zero = true ->
  forall (X : tensor) (w : world G),
    forward X (train mode m, w) = (mlp act oact (layers m) X, (train mode m, w)).
Proof.
  intros E Hoff X w. apply init_inr in E.
  destruct E as (hu & l0 & mids & lf & _ & _ & Hhl & Hq & -> & Hmids & _).
  match goal with
  | |- forward X (?m', w) = _ =>
      assert (Hlen : hidden_layers m' = Z.of_nat (S (length mids)))
        by (cbn [train hidden_layers]; lia);
      rewrite (forward_as_stages m' l0 mids lf eq_refl Hlen);
      change (hidden_stage l0 :: map hidden_stage mids ++ [output_stage lf])
        with (map hidden_stage (l0 :: mids) ++ [output_stage lf]);
      rewrite (stages_off m' lf (l0 :: mids))
  end.
  - reflexivity.
  - unfold dropout_is_off. cbn [train dropout drop_training drop_p].
    destruct Hoff as [-> | Hz]; [left | right]; auto.
  - exact Hq.
Qed.

(** ** The errors of the pass *)

Lemma Linear_forward_inl (u : Linear) (X : tensor) (e : exn) :
  Linear_forward u X = inl e ->
  e = shape_error /\
  Exists (fun row => length row <> Z.to_nat (in_features u)) X.
Proof.
  unfold Linear_forward.
  destruct (forallb _ X) eqn:Hall; [discriminate |].
  intros E. injection E as <-. split; [reflexivity |].
  apply Exists_exists.
  destruct (existsb (fun row => negb (Nat.eqb (length row) (Z.to_nat (in_features u)))) X)
    eqn:Hex.
  - apply existsb_exists in Hex. destruct Hex as (row & Hin & Hrow).
    exists row. split; [exact Hin |].
    apply negb_true_iff, Nat.eqb_neq in Hrow. exact Hrow.
  - exfalso. assert (Hall' : forallb (fun row => Nat.eqb (length row)
                                                  (Z.to_nat (in_features u))) X = true).
    { apply forallb_forall. intros row Hin.
      destruct (Nat.eqb (length row) (Z.to_nat (in_features u))) eqn:Hrow;
        [reflexivity |].
      assert (Hc : existsb (fun row => negb (Nat.eqb (length row)
                                               (Z.to_nat (in_features u)))) X = true).
      { apply existsb_exists. exists row. split; [exact Hin |]. rewrite Hrow.
        reflexivity. }
      rewrite Hc in Hex. discriminate Hex. }
    rewrite Hall' in Hall. discriminate Hall.
Qed.

Lemma Linear_forward_bad_row (u : Linear) (X : tensor) :
  Exists (fun row => length row <> Z.to_nat (in_features u)) X ->
  Linear_forward u X = inl shape_error.
Proof.
  intros Hex. unfold Linear_forward.
  destruct (forallb _ X) eqn:Hall; [| reflexivity].
  exfalso. apply Exists_exists in Hex. destruct Hex as (row & Hin & Hrow).
  rewrite forallb_forall in Hall. specialize (Hall row Hin).
  apply Nat.eqb_eq in Hall. contradiction.
Qed.

Lemma Dropout_forward_total (d : Dropout) (X : tensor) (w : world G) :
  is_probability (drop_p d) -> exists Y w', Dropout_forward d X w = (inr Y, w').
Proof.
  unfold is_probability. intros Hq. unfold Dropout_forward. rewrite Hq.
  destruct (eqb (drop_p d) zero || negb (drop_training d) || Nat.eqb (numel X) 0).
  - exists X, w. reflexivity.
  - destruct (eqb (drop_p d) one).
    + eexists _, w. reflexivity.
    + match goal with |- context [mapM ?f X w] =>
        destruct (mapM_total f (fun _ => True) (fun _ => True)) with (l := X) (s := w)
          as (Y & w' & E & _)
      end.
      * intros row s _.
        match goal with |- context [mapM ?g row s] =>
          destruct (mapM_total g (fun _ => True) (fun _ => True))
            with (l := row) (s := s) as (r & s' & Er & _)
        end.
        -- intros x s0 _. unfold bind, draw, ret.
           destruct (bernoulli (sub one (drop_p d)) (generator s0)) as [keep g'].
           eexists _, _. split; [reflexivity | exact I].
        -- apply Forall_forall. intros; exact I.
        -- exists r, s'. split; [exact Er | exact I].
      * apply Forall_forall. intros; exact I.
      * exists Y, w'. exact E.
Qed.

Lemma hidden_stage_inl (m : BackpropModule) (u : Linear) (X : tensor) (w : world G)
    (e : exn) (h' : heap) :
  is_probability (drop_p (dropout m)) ->
  hidden_stage u X (m, w) = (inl e, h') -> e = shape_error.
Proof.
  intros Hq E.
  unfold hidden_stage, kleisli, apply_linear, call_activation, call_dropout,
    bind, lift, getattr, ret, in_world in E.
  destruct (Linear_forward u X) as [e0 | Y] eqn:EY.
  - injection E as <- _. apply (Linear_forward_inl u X e0 EY).
  - cbn [fst snd] in E.
    destruct (Dropout_forward_total (dropout m) (activation m Y) w Hq) as (Y' & w' & ED).
    rewrite ED in E. discriminate E.
Qed.

Lemma stages_inl (m : BackpropModule) (lf : Linear) (us : list Linear) :
  is_probability (drop_p (dropout m)) ->
  forall (X : tensor) (w : world G) (e : exn) (h' : heap),
    sequential (map hidden_stage us ++ [output_stage lf]) X (m, w) = (inl e, h') ->
    e = shape_error.
Proof.
  intros Hq. induction us as [| u us IH]; intros X w e h' E.
  - cbn [map app sequential] in E. unfold kleisli, bind in E.
    rewrite output_stage_run in E.
    destruct (Linear_forward lf X) as [e0 | Y] eqn:EY; [| discriminate E].
    injection E as <- _. apply (Linear_forward_inl lf X e0 EY).
  - cbn [map app sequential] in E. unfold kleisli in E. unfold bind at 1 in E.
    pose proof (keeps_self_hidden_stage u X (m, w)) as Hkeep.
    destruct (hidden_stage u X (m, w)) as [[e1 | Y] [m1 w1]] eqn:E1.
    + injection E as <- _. apply (hidden_stage_inl m u X w e1 _ Hq E1).
    + cbn [fst snd] in Hkeep. subst m1. apply (IH Y w1 e h' E).
Qed.

(** X8. The only exception the forward pass of a constructed network
    raises, in training mode as in evaluation mode, is the shape error
    of a linear unit: no index is out of range and the dropout unit
    never refuses its probability. *)
Theorem forward_errors (a b : Z) (v : py_value) (hl : Z) (q : R)
    (act oact : tensor -> tensor) (w0 w1 : world G) (m : BackpropModule)
    (mode : bool) (X : tensor) (w : world G) (e : exn) (h' : heap) :
  init a b v hl q act oact w0 = (inr m, w1) ->
  forward X (train mode m, w) = (inl e, h') ->
  e = shape_error.
Proof.
  intros E EX. apply init_inr in E.
  destruct E as (hu & l0 & mids & lf & _ & _ & Hhl & Hq & -> & Hmids & _).
  match type of EX with
  | forward X (?m', w) = _ =>
      assert (Hlen : hidden_layers m' = Z.of_nat (S (length mids)))
        by (cbn [train hidden_layers]; lia);
      rewrite (forward_as_stages m' l0 mids lf eq_refl Hlen) in EX;
      change (hidden_stage l0 :: map hidden_stage mids ++ [output_stage lf])
        with (map hidden_stage (l0 :: mids) ++ [output_stage lf]) in EX;
      apply (stages_inl m' lf (l0 :: mids) Hq X w e h' EX)
  end.
Qed.

(** X9. With an activation that keeps shapes, the forward pass of a
    constructed network returns on every batch whose rows all have
    [input_dim] entries, and raises the shape error, at the first unit
    and before anything is drawn, on every batch that has a row of
    another width. *)
Theorem forward_succeeds_iff_width (a b : Z) (v : py_value) (hl : Z) (q : R)
    (act oact : tensor -> tensor) (w0 w1 : world G) (m : BackpropModule)
    (mode : bool) (X : tensor) (w : world G) :
  init a b v hl q act oact w0 = (inr m, w1) ->
  shape_preserving act ->
  (Forall (fun row => length row = Z.to_nat a) X ->
   exists Y w', forward X (train mode m, w) = (inr Y, (train mode m, w'))) /\
  (Exists (fun row => length row <> Z.to_nat a) X ->
   forward X (train mode m, w) = (inl shape_error, (train mode m, w))).
Proof.
  intros E Hact. split.
  - intros HX.
    destruct (init_forward_shape _ _ _ _ _ _ _ _ _ _ E Hact mode X (length X) w
                (conj eq_refl HX)) as (Z & w' & EZ & _).
    exists (oact Z), w'. exact EZ.
  - intros HX. apply init_inr in E.
    destruct E as (hu & l0 & mids & lf & _ & _ & Hhl & Hq & -> & Hmids & H0 & _).
    destruct H0 as (Hin0 & _). rewrite <- Hin0 in HX.
    match goal with
    | |- forward X (?m', w) = _ =>
        assert (Hlen : hidden_layers m' = Z.of_nat (S (length mids)))
          by (cbn [train hidden_layers]; lia);
        rewrite (forward_as_stages m' l0 mids lf eq_refl Hlen)
    end.
    cbn [sequential]. unfold kleisli at 1. unfold bind at 1.
    unfold hidden_stage, kleisli, apply_linear. unfold bind at 1. unfold lift at 1.
    rewrite (Linear_forward_bad_row l0 X HX). reflexivity.
Qed.

End Properties.

(** * The properties at work on the concrete instance *)

Import Concrete.

Lemma relu_shape_preserving : shape_preserving relu.
Proof.
  intros X B n [HB Hrows]. unfold relu. split.
  - rewrite length_map. exact HB.
  - apply Forall_map. revert Hrows. apply Forall_impl.
    intros row Hrow. rewrite length_map. exact Hrow.
Qed.

Lemma first_entry_shape_preserving : shape_preserving first_entry.
Proof.
  intros X B n [HB Hrows]. unfold first_entry. split.
  - rewrite length_map. exact HB.
  - apply Forall_map. revert Hrows. apply Forall_impl.
    intros [| x row] Hrow; [exact Hrow |].
    cbn [length] in *. rewrite length_map. exact Hrow.
Qed.

Lemma first_entry_normalizing : normalizing (fun s => s = 1) first_entry.
Proof.
  intros X HX. unfold first_entry. apply Forall_map. revert HX. apply Forall_impl.
  intros [| x row] Hrow; [contradiction |].
  assert (H : Forall (fun y => ltb y zero = false) (map (fun _ : Z => 0) row) /\
              row_sum (map (fun _ : Z => 0) row) = 0).
  { clear. induction row as [| y row [IH1 IH2]]; cbn [map].
    - split; [constructor | reflexivity].
    - split; [constructor; [reflexivity | exact IH1] |].
      unfold row_sum in *. cbn [fold_right]. rewrite IH2. reflexivity. }
  destruct H as [H1 H2]. split.
  - constructor; [reflexivity | exact H1].
  - unfold row_sum in *. cbn [fold_right]. rewrite H2. reflexivity.
Qed.


(** [hidden_units=[8,8]] with [hidden_layers=1], and a dropout of [0]. *)
Lemma init_length_mismatch_witness :
  Z.of_nat (length [8; 8]) <> 1 /\
  init 4 3 (PyList [8; 8]) 1 0 relu first_entry (cpu 0) = (inl config_mismatch, cpu 0).
Proof.
  assert (H : Z.of_nat (length [8; 8]) <> 1) by (vm_compute; discriminate).
  split; [exact H |].
  destruct (init_length_mismatch 4 3 [8; 8] 1 0 relu first_entry (cpu 0) H)
    as (_ & Hmismatch & _).
  apply Hmismatch. reflexivity.
Defined.

(** A network of two hidden layers: three units, and the middle one maps
    [hidden_units[0]] to [hidden_units[1]]. *)
Lemma init_wiring_witness :
  exists m w',
    init 4 3 (PyList [8; 5]) 2 0 relu first_entry (cpu 0) = (inr m, w') /\
    Z.of_nat (length (layers m)) = 2 + 1 /\
    exists u, getitem (layers m) 1 = inr u /\ in_features u = 8 /\ out_features u = 5.
Proof.
  destruct (init 4 3 (PyList [8; 5]) 2 0 relu first_entry (cpu 0)) as [[e | m] w'] eqn:E.
  - vm_compute in E. discriminate E.
  - exists m, w'. split; [reflexivity |].
    destruct (init_wiring 4 3 (PyList [8; 5]) 2 0 relu first_entry (cpu 0) w' m E)
      as (hu & Hv & _ & _ & Hlen & _ & Hk & _).
    split; [exact Hlen |].
    injection Hv as <-.
    destruct (Hk 1 ltac:(lia)) as (u & Hu & Hin & Hout).
    exists u. split; [exact Hu |].
    change (getitem [8; 5] (1 - 1)) with (@inr exn Z 8) in Hin.
    change (getitem [8; 5] 1) with (@inr exn Z 5) in Hout.
    split; congruence.
Defined.

(** The same network: its pass is the three stages of its three units. *)
Lemma forward_is_composition_witness :
  exists m w1 l0 l1 lf,
    init 4 3 (PyList [8; 5]) 2 0 relu first_entry (cpu 0) = (inr m, w1) /\
    layers m = [l0; l1; lf] /\
    forall mode X w,
      forward X (train mode m, w) =
      sequential [hidden_stage l0; hidden_stage l1; output_stage lf] X (train mode m, w).
Proof.
  destruct (init 4 3 (PyList [8; 5]) 2 0 relu first_entry (cpu 0)) as [[e | m] w1] eqn:E.
  - vm_compute in E. discriminate E.
  - destruct (forward_is_composition 4 3 (PyList [8; 5]) 2 0 relu first_entry (cpu 0) w1 m E)
      as (l0 & mids & lf & HL & Hlen & Hfwd).
    destruct mids as [| l1 [| l2 mids]]; cbn [length] in Hlen; try lia.
    exists m, w1, l0, l1, lf. split; [reflexivity |]. split; [exact HL |].
    intros mode X w. exact (Hfwd mode X w).
Defined.

(** The configuration of the scenario of the specification, on a batch
    of two rows. *)
Lemma forward_output_shape_witness :
  exists m w1,
    init 4 3 (PyList [8]) 1 0 relu first_entry (cpu 0) = (inr m, w1) /\
    forall (mode : bool) (w : world nat),
      exists Y w',
        forward [[1; 2; 3; 4]; [0; 0; 1; 1]] (train mode m, w)
        = (inr Y, (train mode m, w')) /\
        has_shape Y 2 (Z.to_nat 3).
Proof.
  destruct (init 4 3 (PyList [8]) 1 0 relu first_entry (cpu 0)) as [[e | m] w1] eqn:E.
  - vm_compute in E. discriminate E.
  - exists m, w1. split; [reflexivity |].
    apply (forward_output_shape 4 3 (PyList [8]) 1 0 relu first_entry (cpu 0) w1 m
             2%nat [[1; 2; 3; 4]; [0; 0; 1; 1]] E
             relu_shape_preserving first_entry_shape_preserving).
    + lia.
    + split; [reflexivity | repeat constructor].
Defined.

(** An integer where the list is expected, with a dropout of [0]. *)
Lemma init_rejects_integer_witness :
  init 4 3 (PyInt 8) 1 0 relu first_entry (cpu 0) = (inl config_mismatch, cpu 0).
Proof.
  destruct (init_rejects_integer 4 3 8 1 0 relu first_entry (cpu 0)) as (_ & H & _).
  apply H. reflexivity.
Defined.

(** A constructed network put in evaluation mode, run from two states of
    the generator. *)
Lemma forward_deterministic_witness :
  exists m w',
    init 4 3 (PyList [8]) 1 0 relu first_entry (cpu 0) = (inr m, w') /\
    fst (forward [[1; 2; 3; 4]; [0; 0; 1; 1]] (eval m, cpu 5)) =
    fst (forward [[1; 2; 3; 4]; [0; 0; 1; 1]] (eval m, cpu 7)).
Proof.
  destruct (init 4 3 (PyList [8]) 1 0 relu first_entry (cpu 0)) as [[e | m] w'] eqn:E.
  - vm_compute in E. discriminate E.
  - exists m, w'. split; [reflexivity |].
    apply (forward_deterministic (eval m) [[1; 2; 3; 4]; [0; 0; 1; 1]] (cpu 5) (cpu 7)).
    left. reflexivity.
Defined.

(** The scenario of the specification, with all the mass on the first
    class as the normalizing output activation. *)
Lemma forward_rows_are_distributions_witness :
  exists m w1,
    init 4 3 (PyList [8]) 1 zero relu first_entry (cpu 0) = (inr m, w1) /\
    exists Y w',
      forward [[1; 2; 3; 4]; [0; 0; 1; 1]] (train true m, cpu 9) =
      (inr Y, (train true m, w')) /\
      has_shape Y 2 3 /\ Forall (prob_row (fun s => s = 1)) Y.
Proof.
  destruct (init 4 3 (PyList [8]) 1 zero relu first_entry (cpu 0)) as [[e | m] w1] eqn:E.
  - vm_compute in E. discriminate E.
  - exists m, w1. split; [reflexivity |].
    destruct (forward_rows_are_distributions (R:=Z) (G:=nat) (fun s => s = 1))
      as [_ Hscenario].
    apply (Hscenario relu first_entry (cpu 0) w1 m E
             relu_shape_preserving first_entry_shape_preserving
             first_entry_normalizing true [[1; 2; 3; 4]; [0; 0; 1; 1]] (cpu 9)).
    split; [reflexivity | repeat constructor].
Defined.

(** The default [hidden_units] with a dropout of [0]. *)
Lemma init_default_hidden_units_witness :
  init 4 3 default_hidden_units default_hidden_layers 0 relu first_entry (cpu 0) =
  (inl config_mismatch, cpu 0).
Proof.
  destruct (init_default_hidden_units 4 3 default_hidden_layers 0 relu first_entry (cpu 0))
    as (_ & H & _).
  apply H. reflexivity.
Defined.

(** [hidden_units=[]] with [hidden_layers=0], and a dropout of [0]. *)
Lemma init_needs_a_hidden_layer_witness :
  init 4 3 (PyList []) 0 0 relu first_entry (cpu 0) =
  (inl (IndexError "list index out of range"), cpu 0).
Proof.
  destruct (init_needs_a_hidden_layer 4 3 0 relu first_entry (cpu 0)) as (_ & _ & H).
  apply H. reflexivity.
Defined.

(** ** Where the specification and the code part *)

(** C5, as stated, fails: with [hidden_units=8] and [hidden_layers=1]
    construction does not do what it does with the list [[8]]; it raises
    the configuration mismatch where the list gives a network. *)
Lemma init_integer_not_broadcast :
  fst (init 4 3 (PyInt 8) 1 0 relu first_entry (cpu 0)) = inl config_mismatch /\
  (exists m, fst (init 4 3 (PyList (repeat 8 1)) 1 0 relu first_entry (cpu 0)) = inr m) /\
  ~ (exists m w', init 4 3 (PyInt 8) 1 0 relu first_entry (cpu 0) = (inr m, w')).
Proof.
  split; [reflexivity |]. split.
  - eexists. vm_compute. reflexivity.
  - intros (m & w' & E). vm_compute in E. discriminate E.
Qed.

(** C9, as stated, fails: with [hidden_units] at its default and
    [dropout_percent=2] the error is the one of [nn.Dropout], raised
    before the check of [hidden_units], not the configuration mismatch. *)
Lemma init_default_dropout_error_first :
  init 4 3 default_hidden_units default_hidden_layers 2 relu first_entry (cpu 0) =
  (inl dropout_range_error, cpu 0) /\
  init 4 3 default_hidden_units default_hidden_layers 2 relu first_entry (cpu 0) <>
  (inl config_mismatch, cpu 0).
Proof.
  split; [reflexivity |]. vm_compute. intros H. discriminate H.
Qed.

(** ** The further properties on the concrete instance *)

(** A network of two hidden layers, built without an accelerator: it is
    on ["cpu"], and so are its three units. *)
Lemma init_attributes_and_device_witness :
  exists m w',
    init 4 3 (PyList [8; 5]) 2 0 relu first_entry (cpu 0) = (inr m, w') /\
    device m = "cpu"%string /\
    Forall (fun u => linear_device u = device m) (layers m).
Proof.
  destruct (init 4 3 (PyList [8; 5]) 2 0 relu first_entry (cpu 0)) as [[e | m] w'] eqn:E.
  - vm_compute in E. discriminate E.
  - exists m, w'. split; [reflexivity |].
    destruct (init_attributes_and_device 4 3 (PyList [8; 5]) 2 0 relu first_entry
                (cpu 0) w' m E) as (_ & _ & _ & _ & _ & _ & _ & _ & Hdev & Hunits).
    split; [exact Hdev | exact Hunits].
Defined.

(** The same network holds [(4+1)*8 + (8+1)*5 + (5+1)*3 = 103]
    parameters. *)
Lemma init_parameters_witness :
  exists m w',
    init 4 3 (PyList [8; 5]) 2 0 relu first_entry (cpu 0) = (inr m, w') /\
    Z.of_nat (num_parameters m) = 103.
Proof.
  destruct (init 4 3 (PyList [8; 5]) 2 0 relu first_entry (cpu 0)) as [[e | m] w'] eqn:E.
  - vm_compute in E. discriminate E.
  - exists m, w'. split; [reflexivity |].
    destruct (init_parameters 4 3 [8; 5] 2 0 relu first_entry (cpu 0) w' m E)
      as [_ Hcount].
    rewrite Hcount. reflexivity.
Defined.

(** A list of the right length with a dropout of [0]: no configuration
    mismatch; a list of another length: the configuration mismatch. *)
Lemma init_config_mismatch_iff_witness :
  (exists w', init 4 3 (PyList [8; 8]) 1 0 relu first_entry (cpu 0)
              = (inl config_mismatch, w')) /\
  ~ (exists w', init 4 3 (PyList [-8]) 1 0 relu first_entry (cpu 0)
                = (inl config_mismatch, w')).
Proof.
  assert (Hq : is_probability 0) by reflexivity.
  split.
  - apply (init_config_mismatch_iff 4 3 (PyList [8; 8]) 1 0 relu first_entry (cpu 0) Hq).
    right. exists [8; 8]. split; [reflexivity | vm_compute; discriminate].
  - intros H.
    apply (init_config_mismatch_iff 4 3 (PyList [-8]) 1 0 relu first_entry (cpu 0) Hq)
      in H.
    destruct H as [H | (hu & Hv & Hlen)]; [discriminate H |].
    injection Hv as <-. apply Hlen. reflexivity.
Defined.


(** The empty list with [hidden_layers=0] ends in the third of the
    errors, and in no other. *)
Lemma init_errors_witness :
  init 4 3 (PyList []) 0 0 relu first_entry (cpu 0) = (inl index_error, cpu 0) /\
  is_probability 0 /\ PyList [] = PyList [] /\ 0 = 0.
Proof.
  assert (E : init 4 3 (PyList []) 0 0 relu first_entry (cpu 0)
              = (inl index_error, cpu 0)) by reflexivity.
  split; [exact E |].
  destruct (init_errors 4 3 (PyList []) 0 0 relu first_entry (cpu 0) (cpu 0) index_error E)
    as [[H _] | [[H _] | [(_ & H) | (_ & hu & Hv & _ & Hne & _)]]].
  - discriminate H.
  - discriminate H.
  - exact H.
  - injection Hv as <-. contradiction Hne. reflexivity.
Defined.

(** In evaluation mode the pass of a constructed network is [mlp], from
    any state of the generator, which it leaves as it is. *)
Lemma forward_off_is_mlp_witness :
  exists m w1,
    init 4 3 (PyList [8]) 1 0 relu first_entry (cpu 0) = (inr m, w1) /\
    forward [[1; 2; 3; 4]] (eval m, cpu 7) =
    (mlp relu first_entry (layers m) [[1; 2; 3; 4]], (eval m, cpu 7)).
Proof.
  destruct (init 4 3 (PyList [8]) 1 0 relu first_entry (cpu 0)) as [[e | m] w1] eqn:E.
  - vm_compute in E. discriminate E.
  - exists m, w1. split; [reflexivity |].
    apply (forward_off_is_mlp 4 3 (PyList [8]) 1 0 relu first_entry (cpu 0) w1 m false E).
    left. reflexivity.
Defined.

(** A batch of rows of three entries given to a network of [input_dim=4]. *)
Lemma forward_errors_witness :
  exists m w1 h',
    init 4 3 (PyList [8]) 1 0 relu first_entry (cpu 0) = (inr m, w1) /\
    forward [[1; 2; 3]] (train true m, cpu 0) = (inl shape_error, h').
Proof.
  destruct (init 4 3 (PyList [8]) 1 0 relu first_entry (cpu 0)) as [[e | m] w1] eqn:E.
  - vm_compute in E. discriminate E.
  - destruct (forward [[1; 2; 3]] (train true m, cpu 0)) as [[e | Y] h'] eqn:EX.
    + exists m, w1, h'. split; [reflexivity |]. rewrite EX.
      rewrite (forward_errors 4 3 (PyList [8]) 1 0 relu first_entry (cpu 0) w1 m true
                 [[1; 2; 3]] (cpu 0) e h' E EX).
      reflexivity.
    + exfalso. vm_compute in E. injection E as <- _. vm_compute in EX. discriminate EX.
Defined.

(** The same network on a batch of the right width and on one of a wrong
    width. *)
Lemma forward_succeeds_iff_width_witness :
  exists m w1,
    init 4 3 (PyList [8]) 1 0 relu first_entry (cpu 0) = (inr m, w1) /\
    (exists Y w', forward [[1; 2; 3; 4]] (train true m, cpu 0)
                  = (inr Y, (train true m, w'))) /\
    forward [[1; 2; 3; 4]; [1; 2]] (train true m, cpu 0)
    = (inl shape_error, (train true m, cpu 0)).
Proof.
  destruct (init 4 3 (PyList [8]) 1 0 relu first_entry (cpu 0)) as [[e | m] w1] eqn:E.
  - vm_compute in E. discriminate E.
  - exists m, w1. split; [reflexivity |]. split.
    + apply (forward_succeeds_iff_width 4 3 (PyList [8]) 1 0 relu first_entry
               (cpu 0) w1 m true [[1; 2; 3; 4]] (cpu 0) E relu_shape_preserving).
      repeat constructor.
    + apply (forward_succeeds_iff_width 4 3 (PyList [8]) 1 0 relu first_entry
               (cpu 0) w1 m true [[1; 2; 3; 4]; [1; 2]] (cpu 0) E relu_shape_preserving).
      apply Exists_cons_tl. apply Exists_cons_hd. vm_compute. discriminate.
Defined.

